(** * Edge Control daemon service and remote-command client

    A shallow embedding of [pkg/daemon/service.go] (the pause/resume state
    machine, the [Logger] stream handler, the start-up privilege check, the
    RPC worker and its shutdown handler) and of
    [pkg/client/cli/command_remote.go] (the three pumps of a remote
    command, the session around them, and the annotations and listing of
    remote commands), with their properties.

    Calls that leave the program (the logger, the writers behind stdout and
    stderr, the RPC streams, the supervisor) are recorded as they are made;
    what they return is an input of the model. *)

From Stdlib Require Import String Ascii List ZArith Bool Lia.
Import ListNotations.

Local Open Scope string_scope.

(** ** Go error values *)

Module errors.

(** The error values the two files build or compare against: the sentinel
    [io.EOF], an opaque error carrying a text ([errors.New], and any error
    of a collaborator), and [fmt.Errorf] with one [%w] operand. *)
Inductive error : Type :=
| io_EOF
| New (text : string)
| Errorf (before : string) (wrapped : error) (after : string).

(** [err.Error()] *)
Fixpoint Error (err : error) : string :=
  match err with
  | io_EOF => "EOF"
  | New text => text
  | Errorf before wrapped after => before ++ Error wrapped ++ after
  end.

(** [err == target] *)
Fixpoint eqb (err target : error) : bool :=
  match err, target with
  | io_EOF, io_EOF => true
  | New a, New b => String.eqb a b
  | Errorf b1 w1 a1, Errorf b2 w2 a2 =>
      String.eqb b1 b2 && eqb w1 w2 && String.eqb a1 a2
  | _, _ => false
  end.

(** [errors.Is(err, target)]: [err] or an error it wraps is [target]. *)
Fixpoint Is (err target : error) : bool :=
  eqb err target ||
  match err with
  | Errorf _ wrapped _ => Is wrapped target
  | _ => false
  end.

End errors.

Abbreviation error := errors.error.

(** ** Printf-style formatting *)

Module fmt.

(** An operand handed to a printf-style call. *)
Inductive Operand : Type :=
| OpString (s : string)
| OpError (e : error)
| OpInt (n : Z).

(** A recorded printf-style call: the format and its operands. *)
Record Call : Type := { format : string; operands : list Operand }.

Definition is_letter (c : ascii) : bool :=
  let n := nat_of_ascii c in
  ((65 <=? n) && (n <=? 90) || (97 <=? n) && (n <=? 122))%nat.

(** What [%v] or [%s] prints for a textual operand. *)
Definition verb_text (verb : ascii) (o : Operand) : option string :=
  if (Ascii.eqb verb "v" || Ascii.eqb verb "s")%bool then
    match o with
    | OpString s => Some s
    | OpError e => Some (errors.Error e)
    | OpInt _ => None
    end
  else None.

(** The text Go's [fmt] produces for a format and its operands, on the
    fragment of formats in which every ['%'] is followed by ['%'], by a
    letter, or by the end of the format (no flags, width, precision or
    argument index), with [%v]/[%s] on textual operands and no operand left
    over. Text outside a verb is copied; [%%] prints one ['%']; a letter
    verb with no operand left prints [%!verb(MISSING)]; a lone ['%'] at the
    end prints [%!(NOVERB)]. [None] outside the fragment. *)
Fixpoint Sprintf (format : string) (ops : list Operand) : option string :=
  match format with
  | EmptyString => match ops with [] => Some EmptyString | _ => None end
  | String c rest =>
      if Ascii.eqb c "%" then
        match rest with
        | EmptyString =>
            match ops with [] => Some "%!(NOVERB)" | _ => None end
        | String verb rest' =>
            if Ascii.eqb verb "%" then
              option_map (String "%") (Sprintf rest' ops)
            else if is_letter verb then
              match ops with
              | [] => option_map (append ("%!" ++ String verb "(MISSING)"))
                                 (Sprintf rest' [])
              | o :: ops' =>
                  match verb_text verb o with
                  | Some t => option_map (append t) (Sprintf rest' ops')
                  | None => None
                  end
              end
            else None
        end
      else option_map (String c) (Sprintf rest ops)
  end.

Definition rendered (c : Call) : option string :=
  Sprintf (format c) (operands c).

(** The format contains no ['%']. *)
Fixpoint percent_free (s : string) : bool :=
  match s with
  | EmptyString => true
  | String c rest => negb (Ascii.eqb c "%") && percent_free rest
  end.

End fmt.

(** ** Messages of the daemon's RPC surface *)

Module rpc.

(** [DaemonStatusResponse.Error]: the zero value of a fresh response and the
    two values [Status] assigns. *)
Inductive DaemonStatusResponse_ErrType : Type :=
| DaemonStatusResponse_Unspecified
| DaemonStatusResponse_Paused
| DaemonStatusResponse_NoNetwork.

Record DaemonStatusResponse : Type :=
  { status_Error : DaemonStatusResponse_ErrType }.

(** [PauseResponse.Error]: the zero value and the values [Pause] assigns. *)
Inductive PauseResponse_ErrType : Type :=
| PauseResponse_Unspecified
| PauseResponse_AlreadyPaused
| PauseResponse_ConnectedToCluster
| PauseResponse_UnexpectedPauseError.

Record PauseResponse : Type :=
  { pause_Error : PauseResponse_ErrType; pause_ErrorText : string }.

(** [ResumeResponse.Error]: the zero value and the values [Resume] assigns. *)
Inductive ResumeResponse_ErrType : Type :=
| ResumeResponse_Unspecified
| ResumeResponse_NotPaused
| ResumeResponse_ReEstablishing
| ResumeResponse_UnexpectedResumeError.

Record ResumeResponse : Type :=
  { resume_Error : ResumeResponse_ErrType; resume_ErrorText : string }.

Record LogMessage : Type := { Text : string }.

Inductive Empty : Type := Empty_value.

End rpc.

(** ** The daemon service *)

Module daemon.

Import rpc.
Local Open Scope list_scope.

(** A reference to an object behind the [edgectl.Resource] interface. *)
Definition ref : Type := nat.

(** The object behind a resource reference, seen through its interface:
    what [IsOkay] reports, what [Close] returns, and how often [Close] has
    been called on it. *)
Record Resource : Type :=
  { okay : bool; close_error : option error; close_calls : nat }.

(** What the external installer does when asked for a new override. *)
Inductive InstallAttempt : Type :=
| InstallFails (err : error)
| InstallYields (r : ref).

(** A line handed to the daemon's log: through the supervisor's logger
    ([lg.Printf]) or through the worker's process ([d.p.Logf]). *)
Inductive LogEntry : Type :=
| Logger_Printf (c : fmt.Call)
| Process_Logf (c : fmt.Call).

(** [type service struct]; the handles [grpc], [hClient] and [p] are reached
    through the world below. *)
Record service : Type :=
  { network : option ref; dns : string; fallback : string }.

(** The daemon and what it can reach: the service struct, the resource
    objects, whether [edgectl.SocketExists(edgectl.ConnectorSocketName)]
    holds, the installer's next outcome, and the daemon's log. *)
Record World : Type :=
  { d : service;
    heap : ref -> Resource;
    connector_socket : bool;
    installer : InstallAttempt;
    log : list LogEntry }.

(** State passing over the world. *)
Definition M (A : Type) : Type := World -> A * World.

Definition ret {A : Type} (a : A) : M A := fun w => (a, w).

Definition bind {A B : Type} (m : M A) (k : A -> M B) : M B :=
  fun w => let (a, w') := m w in k a w'.

Notation "x <- m ;; k" := (bind m (fun x => k))
  (at level 61, m at next level, right associativity).
Notation "m ;;; k" := (bind m (fun _ => k))
  (at level 61, right associativity).

(** [d.network] *)
Definition get_network : M (option ref) := fun w => (network (d w), w).

(** [d.network = v] *)
Definition set_network (v : option ref) : M unit := fun w =>
  (tt, {| d := {| network := v; dns := dns (d w); fallback := fallback (d w) |};
          heap := heap w;
          connector_socket := connector_socket w;
          installer := installer w;
          log := log w |}).

(** [edgectl.SocketExists(edgectl.ConnectorSocketName)] *)
Definition SocketExists_ConnectorSocketName : M bool :=
  fun w => (connector_socket w, w).

(** [r.IsOkay()] *)
Definition IsOkay (r : ref) : M bool := fun w => (okay (heap w r), w).

(** [r.Close()]: the call is counted on the object, and returns its error. *)
Definition Close (r : ref) : M (option error) := fun w =>
  let o := heap w r in
  (close_error o,
   {| d := d w;
      heap := fun r' =>
        if Nat.eqb r' r
        then {| okay := okay o; close_error := close_error o;
                close_calls := S (close_calls o) |}
        else heap w r';
      connector_socket := connector_socket w;
      installer := installer w;
      log := log w |}).

(** The world with further entries at the end of its log. *)
Definition logged (w : World) (entries : list LogEntry) : World :=
  {| d := d w; heap := heap w; connector_socket := connector_socket w;
     installer := installer w; log := log w ++ entries |}.

Definition append_log (e : LogEntry) : M unit := fun w => (tt, logged w [e]).

(** [d.p.Logf(format, operands...)] *)
Definition Logf (format : string) (operands : list fmt.Operand) : M unit :=
  append_log
    (Process_Logf {| fmt.format := format; fmt.operands := operands |}).

(** [lg.Printf(format, operands...)] with [lg := d.p.Supervisor().Logger] *)
Definition Printf (format : string) (operands : list fmt.Operand) : M unit :=
  append_log
    (Logger_Printf {| fmt.format := format; fmt.operands := operands |}).

(** Modelled from the spec: [makeNetOverride], a method of [service] that
    is defined in another file of the package. The spec has the override
    "created by an external installer when the daemon starts or on Resume",
    and on a failed installation "override remains nil on failure": a
    failing installer leaves [d.network] as it is and its error is
    returned; otherwise the new override becomes [d.network]. *)
Definition makeNetOverride : M (option error) := fun w =>
  match installer w with
  | InstallFails err => (Some err, w)
  | InstallYields r => (None, snd (set_network (Some r) w))
  end.

(** [func (d *service) Status]: the response and the RPC error. *)
Definition Status : M (DaemonStatusResponse * option error) :=
  net <- get_network ;;
  match net with
  | None => ret ({| status_Error := DaemonStatusResponse_Paused |}, None)
  | Some n =>
      ok <- IsOkay n ;;
      if negb ok
      then ret ({| status_Error := DaemonStatusResponse_NoNetwork |}, None)
      else ret ({| status_Error := DaemonStatusResponse_Unspecified |}, None)
  end.

(** [func (d *service) Pause] *)
Definition Pause : M (PauseResponse * option error) :=
  net <- get_network ;;
  match net with
  | None =>
      ret ({| pause_Error := PauseResponse_AlreadyPaused;
              pause_ErrorText := "" |}, None)
  | Some n =>
      exists_ <- SocketExists_ConnectorSocketName ;;
      if exists_ then
        ret ({| pause_Error := PauseResponse_ConnectedToCluster;
                pause_ErrorText := "" |}, None)
      else
        err <- Close n ;;
        r <- match err with
             | Some e =>
                 Logf "pause: %v" [fmt.OpError e] ;;;
                 ret {| pause_Error := PauseResponse_UnexpectedPauseError;
                        pause_ErrorText := errors.Error e |}
             | None =>
                 ret {| pause_Error := PauseResponse_Unspecified;
                        pause_ErrorText := "" |}
             end ;;
        set_network None ;;;
        ret (r, None)
  end.

(** [func (d *service) Resume] *)
Definition Resume : M (ResumeResponse * option error) :=
  net <- get_network ;;
  match net with
  | Some n =>
      ok <- IsOkay n ;;
      if ok then
        ret ({| resume_Error := ResumeResponse_NotPaused;
                resume_ErrorText := "" |}, None)
      else
        ret ({| resume_Error := ResumeResponse_ReEstablishing;
                resume_ErrorText := "" |}, None)
  | None =>
      err <- makeNetOverride ;;
      match err with
      | Some e =>
          Logf "resume: %v" [fmt.OpError e] ;;;
          ret ({| resume_Error := ResumeResponse_UnexpectedResumeError;
                  resume_ErrorText := errors.Error e |}, None)
      | None =>
          ret ({| resume_Error := ResumeResponse_Unspecified;
                  resume_ErrorText := "" |}, None)
      end
  end.

(** What a call to a handler has come to: it returned (with its error), or
    it is still blocked in a receive. *)
Inductive Outcome : Type :=
| Returned (err : option error)
| Blocked.

(** What [server.Recv()] returns. *)
Inductive RecvResult : Type :=
| RecvMsg (msg : LogMessage)
| RecvErr (err : error).

(** A received message carrying [text]. *)
Definition line (text : string) : RecvResult := RecvMsg {| Text := text |}.

(** The log entry of [lg.Printf(text)]. *)
Definition printed (text : string) : LogEntry :=
  Logger_Printf {| fmt.format := text; fmt.operands := [] |}.

(** [rpc.Daemon_LoggerServer]: what the successive [Recv] calls return, what
    [SendAndClose] returns, and the replies sent so far. *)
Record Daemon_LoggerServer : Type :=
  { inbound : list RecvResult;
    SendAndClose_result : option error;
    replies : list Empty }.

(** The loop of [Logger] over the receives still to come. *)
Fixpoint Logger_loop (inbound : list RecvResult) (ack : option error)
  : M (Outcome * list Empty) :=
  match inbound with
  | [] => ret (Blocked, [])
  | RecvErr err :: _ =>
      if errors.eqb err errors.io_EOF
      then ret (Returned ack, [Empty_value])
      else ret (Returned (Some err), [])
  | RecvMsg msg :: rest =>
      Printf (Text msg) [] ;;;
      Logger_loop rest ack
  end.

(** [func (d *service) Logger]: the outcome and the replies on the stream
    after the call. *)
Definition Logger (server : Daemon_LoggerServer) : M (Outcome * list Empty) :=
  r <- Logger_loop (inbound server) (SendAndClose_result server) ;;
  ret (fst r, replies server ++ snd r).

(** The process the daemon is started in, and what the supervisor's [Run]
    will report. *)
Record Process : Type :=
  { Geteuid : Z;
    Getpid : Z;
    DisplayVersion : string;
    runErrors : list error }.

(** What [Run] does to the outside, in order. *)
Inductive Effect : Type :=
| SetUpLogging
| Supervise (name : string) (requires : list string)
| LoggerPrintf (c : fmt.Call)
| SupervisorRun.

Definition printf (format : string) (operands : list fmt.Operand) : Effect :=
  LoggerPrintf {| fmt.format := format; fmt.operands := operands |}.

(** [func Run(dns, fallback string) error]: the error returned and the
    effects performed. The workers run, and the daemon's socket is created,
    inside the supervisor's [Run]. *)
Definition Run (os : Process) (dns fallback : string) : error * list Effect :=
  if negb (Geteuid os =? 0)%Z then
    (errors.New "edgectl daemon must run as root", [])
  else
    (errors.New "edgectl daemon has exited",
     [ SetUpLogging;
       Supervise "daemon" [];
       Supervise "setup" ["daemon"];
       printf "---" [];
       printf "Edge Control daemon %s starting..."
              [fmt.OpString (DisplayVersion os)];
       printf "PID is %d" [fmt.OpInt (Getpid os)];
       SupervisorRun;
       printf "" [] ]
     ++ (if (0 <? length (runErrors os))%nat then
           printf "daemon has exited with %d error(s):"
                  [fmt.OpInt (Z.of_nat (length (runErrors os)))]
           :: map (fun err => printf "- %v" [fmt.OpError err]) (runErrors os)
         else [])
     ++ [ printf "Edge Control daemon %s is done."
                 [fmt.OpString (DisplayVersion os)] ]).

End daemon.

(** ** Frames of the RunCommand stream *)

Module connector.

(** The structured result carried by a response frame. *)
Record Result : Type := { Data : list Byte.byte; ErrorCategory : Z }.

(** [connector.RunCommandResponse]: [Data] is a pointer and may be nil. *)
Record RunCommandResponse : Type :=
  { sr_Data : option Result; Final : bool }.

End connector.

(** ** The client-side output pump *)

Module cli.

Import connector.
Local Open Scope list_scope.

Inductive Writer : Type := Stdout | Stderr.

(** A call [w.Write(p)]. *)
Record WriteCall : Type := { writer : Writer; written : list Byte.byte }.

(** What [cmdStream.Recv()] returns. *)
Inductive RecvResult : Type :=
| RecvFrame (sr : RunCommandResponse)
| RecvErr (err : error).

(** One round of the pump's loop as the outside drives it: whether the
    context is canceled by the time the loop condition is evaluated, what
    [Recv] returns, whether the context is canceled by the time [ctx.Err()]
    is consulted after a failed [Recv] or [Write] (or, without a failure, by
    the end of the round), and the error [Write] returns. *)
Record Turn : Type :=
  { canceled_before : bool;
    Recv : RecvResult;
    canceled_during : bool;
    Write : option error }.

(** The pump returned (with its error), panicked on a nil dereference, or
    is still blocked in [Recv]. *)
Inductive Outcome : Type :=
| Returned (err : option error)
| Panicked
| Blocked.

(** A run of the pump: its outcome, the [Write] calls in order, the number
    of [Recv] calls that returned, and the deferred [CloseSend] calls. *)
Record Run : Type :=
  { outcome : Outcome;
    writes : list WriteCall;
    reads : nat;
    CloseSend_calls : nat }.

Definition finish (o : Outcome) : Run :=
  {| outcome := o; writes := []; reads := 0;
     CloseSend_calls := match o with Blocked => 0 | _ => 1 end |}.

Definition received (r : Run) : Run :=
  {| outcome := outcome r; writes := writes r; reads := S (reads r);
     CloseSend_calls := CloseSend_calls r |}.

Definition wrote (c : WriteCall) (r : Run) : Run :=
  {| outcome := outcome r; writes := c :: writes r; reads := reads r;
     CloseSend_calls := CloseSend_calls r |}.

Definition newline : string := String (ascii_of_nat 10) EmptyString.

Section Pump.

(** The two things the spec leaves open about [errcat.FromResult]: which
    results count as empty, and the error derived from one that is not. *)
Variable result_is_empty : Result -> bool.
Variable error_of : Result -> error.

(** Modelled from the spec: [errcat.FromResult], defined in package
    [errcat]. The spec has the pump derive "a final error from the
    structured result (if present and non-empty)", and a final frame "with
    empty result" yield a nil error. *)
Definition FromResult (r : Result) : option error :=
  if result_is_empty r then None else Some (error_of r).

(** [func stdoutAndStderrPump], from a context that is [canceled] or not,
    over the rounds still to come. [runRemote] returns what it returns. *)
Fixpoint stdoutAndStderrPump (canceled : bool) (script : list Turn) : Run :=
  match script with
  | [] => if canceled then finish (Returned None) else finish Blocked
  | t :: rest =>
      if canceled || canceled_before t then finish (Returned None)
      else
        received
          match Recv t with
          | RecvErr err =>
              if errors.Is err errors.io_EOF || canceled_during t
              then finish (Returned None)
              else finish (Returned (Some
                     (errors.Errorf "failed to read stdout/stderr stream: "
                                    err newline)))
          | RecvFrame sr =>
              let r := sr_Data sr in
              if Final sr then
                finish (Returned match r with
                                 | Some r => FromResult r
                                 | None => None
                                 end)
              else
                match r with
                | None => finish Panicked
                | Some r =>
                    let w := if (ErrorCategory r =? 0)%Z
                             then Stdout else Stderr in
                    wrote {| writer := w; written := Data r |}
                      match Write t with
                      | Some err =>
                          if canceled_during t then finish (Returned None)
                          else finish (Returned (Some
                                 (errors.Errorf "failed to write stdout/stderr: "
                                                err newline)))
                      | None => stdoutAndStderrPump (canceled_during t) rest
                      end
                end
          end
  end.

End Pump.

(** A round that delivers a non-terminal Data frame whose write succeeds,
    with the context live throughout. *)
Definition live_data (t : Turn) : bool :=
  negb (canceled_before t) && negb (canceled_during t) &&
  match Write t with None => true | Some _ => false end &&
  match Recv t with
  | RecvFrame sr =>
      negb (Final sr) &&
      match sr_Data sr with Some _ => true | None => false end
  | RecvErr _ => false
  end.

(** The frames among the first [n] receives of a script. *)
Fixpoint frames_received (n : nat) (script : list Turn)
  : list RunCommandResponse :=
  match n, script with
  | S n', t :: rest =>
      match Recv t with
      | RecvFrame sr => sr :: frames_received n' rest
      | RecvErr _ => frames_received n' rest
      end
  | _, _ => []
  end.

(** Where the bytes of the frames go, following the spec's words: the bytes
    of each non-terminal Data frame, to stdout when [ErrorCategory] is 0 and
    to stderr otherwise, in the order of the frames. *)
Fixpoint routed (frames : list RunCommandResponse) : list WriteCall :=
  match frames with
  | [] => []
  | sr :: rest =>
      match Final sr, sr_Data sr with
      | false, Some r =>
          {| writer := if (ErrorCategory r =? 0)%Z then Stdout else Stderr;
             written := Data r |} :: routed rest
      | _, _ => routed rest
      end
  end.

End cli.

(** ** Concrete states and scripts used to evaluate the definitions *)

Module sample.

Import rpc daemon.
Local Open Scope list_scope.

Definition healthy : Resource :=
  {| okay := true; close_error := None; close_calls := 0 |}.

Definition stuck : Resource :=
  {| okay := false; close_error := Some (errors.New "teleproxy: exit status 1");
     close_calls := 0 |}.

(** Reference 0 is a healthy override, every other one a stuck one. *)
Definition objects : ref -> Resource :=
  fun r => match r with O => healthy | _ => stuck end.

Definition world (net : option ref) (socket : bool) (i : InstallAttempt)
  : World :=
  {| d := {| network := net; dns := "10.0.0.10"; fallback := "8.8.8.8" |};
     heap := objects;
     connector_socket := socket;
     installer := i;
     log := [] |}.

Definition paused_connected : World := world None true (InstallYields 0).
Definition running_connected : World := world (Some 0) true (InstallYields 0).
Definition running_stuck : World := world (Some 1) false (InstallYields 0).
Definition paused_failing : World :=
  world None false (InstallFails (errors.New "teleproxy initial launch")).

(** A client that closes the stream at once; the acknowledgement fails. *)
Definition closed_unacknowledged : Daemon_LoggerServer :=
  {| inbound := [RecvErr errors.io_EOF];
     SendAndClose_result := Some (errors.New "transport is closing");
     replies := [] |}.

Definition user : Process :=
  {| Geteuid := 1000; Getpid := 4242; DisplayVersion := "v1.0.0";
     runErrors := [] |}.

Definition root : Process :=
  {| Geteuid := 0; Getpid := 4242; DisplayVersion := "v1.0.0";
     runErrors := [] |}.

(** A client that sends two lines and closes; the acknowledgement is sent. *)
Definition two_lines : Daemon_LoggerServer :=
  {| inbound := map line ["connecting"; "connected"]
                ++ [RecvErr errors.io_EOF];
     SendAndClose_result := None;
     replies := [] |}.

(** A client whose connection breaks after one line. *)
Definition broken : Daemon_LoggerServer :=
  {| inbound := map line ["connecting"]
                ++ [RecvErr (errors.New "connection reset by peer")];
     SendAndClose_result := None;
     replies := [] |}.

(** A client that sends a line ending in a percent sign and closes. *)
Definition percent_line : Daemon_LoggerServer :=
  {| inbound := [line "100%"; RecvErr errors.io_EOF];
     SendAndClose_result := None;
     replies := [] |}.

(** The output pump's rounds. *)

Definition bytes (s : string) : list Byte.byte := list_byte_of_string s.

(** A round in which a frame arrives, the context stays live and the write
    succeeds. *)
Definition frame (sr : connector.RunCommandResponse) : cli.Turn :=
  {| cli.canceled_before := false; cli.Recv := cli.RecvFrame sr;
     cli.canceled_during := false; cli.Write := None |}.

Definition data (category : Z) (s : string) : cli.Turn :=
  frame {| connector.sr_Data :=
             Some {| connector.Data := bytes s;
                     connector.ErrorCategory := category |};
           connector.Final := false |}.

Definition final (r : option connector.Result) : cli.Turn :=
  frame {| connector.sr_Data := r; connector.Final := true |}.

(** A round in which [Recv] fails, with the context canceled or not by the
    time the error is looked at. *)
Definition failing (err : error) (canceled : bool) : cli.Turn :=
  {| cli.canceled_before := false; cli.Recv := cli.RecvErr err;
     cli.canceled_during := canceled; cli.Write := None |}.

(** One reading of the two open points of [errcat.FromResult]: a result is
    empty when its category is 0, and the error derived from another one
    carries its bytes as text. *)
Definition uncategorized (r : connector.Result) : bool :=
  (connector.ErrorCategory r =? 0)%Z.

Definition categorized (r : connector.Result) : error :=
  errors.New (string_of_list_byte (connector.Data r)).

Definition no_such_pod : connector.Result :=
  {| connector.Data := bytes "no such pod"; connector.ErrorCategory := 1 |}.

Definition nothing : connector.Result :=
  {| connector.Data := []; connector.ErrorCategory := 0 |}.

Definition pump : bool -> list cli.Turn -> cli.Run :=
  cli.stdoutAndStderrPump uncategorized categorized.

(** [echo hi]: two Data frames, then a final frame with an empty result. *)
Definition echo_hi : list cli.Turn :=
  [data 0 "h"; data 0 "i"; final (Some nothing)].

(** Output on both streams, a final frame with a result, and a frame that
    is sent after it. *)
Definition failed_command : list cli.Turn :=
  [data 0 "out"; data 2 "err"; final (Some no_such_pod); data 0 "late"].

End sample.

(** ** The daemon's RPC worker and its shutdown *)

Module lifecycle.

Local Open Scope list_scope.

(** [errors.Wrap(err, message)] of [github.com/pkg/errors]: nil for a nil
    error; otherwise an error that wraps [err] and whose text is the
    message, a colon and a space, and the text of [err]. *)
Definition Wrap (err : option error) (message : string) : option error :=
  option_map (fun e => errors.Errorf (message ++ ": ")%string e "") err.

(** What the host answers to the worker: the socket path
    ([edgectl.DaemonSocketName]) and the results of [net.Listen],
    [os.Chmod] and [grpcServer.Serve]. *)
Record Host : Type :=
  { DaemonSocketName : string;
    Listen_result : option error;
    Chmod_result : option error;
    Serve_result : option error }.

(** What [runGRPCService] does, in order. *)
Inductive Step : Type :=
| NetListen (network address : string)
| Chmod (name : string) (mode : Z)
| NewServer
| RegisterDaemonServer
| GoHandleSignalsAndShutdown
| Ready
| Serve.

(** [func (d *service) runGRPCService]: the error returned once the worker
    ends, and the steps taken. *)
Definition runGRPCService (h : Host) : option error * list Step :=
  match Listen_result h with
  | Some err =>
      (Wrap (Some err) "listen", [NetListen "unix" (DaemonSocketName h)])
  | None =>
      match Chmod_result h with
      | Some err =>
          (Wrap (Some err) "chmod",
           [NetListen "unix" (DaemonSocketName h);
            Chmod (DaemonSocketName h) 511])
      | None =>
          (Wrap (Serve_result h) "daemon gRCP server",
           [NetListen "unix" (DaemonSocketName h);
            Chmod (DaemonSocketName h) 511;
            NewServer;
            RegisterDaemonServer;
            GoHandleSignalsAndShutdown;
            Ready;
            Serve])
      end
  end.

(** What ends the wait of [handleSignalsAndShutdown]. *)
Inductive Wake : Type :=
| BySignal (sig : string)
| ByShutdown.

(** What surrounds the shutdown: the wake-up, whether the connector's
    socket exists, and the results of [grpc.Dial] and of the connector's
    [Quit]. *)
Record Surroundings : Type :=
  { wake : Wake;
    connector_socket_exists : bool;
    Dial_result : option error;
    Quit_result : option error }.

(** What [handleSignalsAndShutdown] does, in order. *)
Inductive Action : Type :=
| SignalNotify
| ProcessLogf (c : fmt.Call)
| ProcessLog (text : string)
| Dial
| ConnectorQuit
| ConnClose
| GracefulStop.

(** [func (d *service) handleSignalsAndShutdown]; the deferred calls run
    when it returns, the last deferred first. *)
Definition handleSignalsAndShutdown (s : Surroundings) : list Action :=
  [ SignalNotify;
    match wake s with
    | BySignal sig =>
        ProcessLogf {| fmt.format := "Received signal %s";
                       fmt.operands := [fmt.OpString sig] |}
    | ByShutdown => ProcessLog "Shutting down"
    end ]
  ++ (if negb (connector_socket_exists s) then []
      else
        Dial :: match Dial_result s with
                | Some _ => []
                | None => [ConnectorQuit; ConnClose]
                end)
  ++ [GracefulStop].

(** The run errors shown by a ["- %v"] line of [Run]. *)
Definition reported (e : daemon.Effect) : list error :=
  match e with
  | daemon.LoggerPrintf c =>
      if String.eqb (fmt.format c) "- %v" then
        match fmt.operands c with
        | [fmt.OpError err] => [err]
        | _ => []
        end
      else []
  | _ => []
  end.

End lifecycle.

(** ** The input pump, the interrupt pump and the session *)

Module session.

Local Open Scope list_scope.

(** What [stdin.Read(buf)] returns: the bytes [buf[:n]] and the error. *)
Record ReadResult : Type :=
  { chunk : list Byte.byte; read_error : option error }.

(** One round of the input pump's loop as the outside drives it: whether
    the context is canceled by the time the loop condition is evaluated,
    what [Read] returns, what [Send] returns if it is called, and whether
    the context is canceled by the time [ctx.Err()] is consulted after a
    failure (or, without one, by the end of the round). *)
Record Round : Type :=
  { done_before : bool;
    Read : ReadResult;
    Send_result : option error;
    done_after : bool }.

(** The input pump returned, or is still blocked in [Read]. *)
Inductive InputOutcome : Type :=
| InputReturned
| InputBlocked.

(** A run of the input pump: its outcome, the Data frames handed to [Send]
    in order, the [dlog.Errorf] calls, and the [Read] calls that returned. *)
Record InputRun : Type :=
  { input_outcome : InputOutcome;
    sends : list (list Byte.byte);
    errors_logged : list fmt.Call;
    rounds : nat }.

Definition stop (o : InputOutcome) : InputRun :=
  {| input_outcome := o; sends := []; errors_logged := []; rounds := 0 |}.

Definition did_read (r : InputRun) : InputRun :=
  {| input_outcome := input_outcome r; sends := sends r;
     errors_logged := errors_logged r; rounds := S (rounds r) |}.

Definition did_send (data : list Byte.byte) (r : InputRun) : InputRun :=
  {| input_outcome := input_outcome r; sends := data :: sends r;
     errors_logged := errors_logged r; rounds := rounds r |}.

Definition did_log (c : fmt.Call) (r : InputRun) : InputRun :=
  {| input_outcome := input_outcome r; sends := sends r;
     errors_logged := c :: errors_logged r; rounds := rounds r |}.

Definition Errorf_call (text : string) (err : error) : fmt.Call :=
  {| fmt.format := (text ++ ": %v" ++ cli.newline)%string;
     fmt.operands := [fmt.OpError err] |}.

(** [func stdinPump]. The error of [Send] is assigned to the variable that
    holds the error of [Read]: after a successful [Send] that variable is
    nil. *)
Fixpoint stdinPump (canceled : bool) (script : list Round) : InputRun :=
  match script with
  | [] => if canceled then stop InputReturned else stop InputBlocked
  | t :: rest =>
      if canceled || done_before t then stop InputReturned
      else
        did_read
          (if (0 <? length (chunk (Read t)))%nat then
             did_send (chunk (Read t))
               match Send_result t with
               | Some err =>
                   if done_after t then stop InputReturned
                   else did_log (Errorf_call "failed to forward to stdin" err)
                                (stop InputReturned)
               | None => stdinPump (done_after t) rest
               end
           else
             match read_error (Read t) with
             | Some err =>
                 if errors.Is err errors.io_EOF || done_after t
                 then stop InputReturned
                 else did_log (Errorf_call "failed to read from stdin" err)
                              (stop InputReturned)
             | None => stdinPump (done_after t) rest
             end)
  end.

(** The chunks the first [n] reads of a script ask to forward, following
    the loop's test [n > 0]: the non-empty ones, in order. *)
Fixpoint forwarded (n : nat) (script : list Round) : list (list Byte.byte) :=
  match n, script with
  | S n', t :: rest =>
      match chunk (Read t) with
      | [] => forwarded n' rest
      | data => data :: forwarded n' rest
      end
  | _, _ => []
  end.

(** The same round with the error of [Read] taken away. *)
Definition without_read_error (t : Round) : Round :=
  {| done_before := done_before t;
     Read := {| chunk := chunk (Read t); read_error := None |};
     Send_result := Send_result t;
     done_after := done_after t |}.

(** A round after which the input pump goes on: the context is live
    throughout, and either bytes were read and sent, or nothing was read
    and no error returned. *)
Definition flowing (t : Round) : bool :=
  negb (done_before t) && negb (done_after t) &&
  match chunk (Read t) with
  | [] => match read_error (Read t) with None => true | Some _ => false end
  | _ => match Send_result t with None => true | Some _ => false end
  end.

(** Which case of the first [select] of [interruptPump] fires. *)
Inductive FirstSelect : Type :=
| ContextDone
| SignalReceived (sig : option string).

(** Which case of its second [select] fires. *)
Inductive SecondSelect : Type :=
| ContextDoneFirst
| TimerFired.

(** How a run of [interruptPump] is driven: the two selects, what [Send]
    returns, and whether the context is canceled when [ctx.Err()] is
    consulted after a failed [Send]. *)
Record Interrupt : Type :=
  { first : FirstSelect;
    SoftCancel_result : option error;
    done_at_failure : bool;
    second : SecondSelect }.

(** What [interruptPump] does, in order; [TimeAfter] carries the duration
    in seconds. *)
Inductive Move : Type :=
| Notify
| SendSoftCancel
| LogError (c : fmt.Call)
| TimeAfter (seconds : Z)
| Cancel
| SignalStop
| CloseChannel.

(** [func interruptPump] *)
Definition interruptPump (i : Interrupt) : list Move :=
  [Notify]
  ++ match first i with
     | ContextDone => []
     | SignalReceived None => []
     | SignalReceived (Some _) =>
         SendSoftCancel ::
         match SoftCancel_result i with
         | Some err =>
             if done_at_failure i
             then [LogError (Errorf_call "failed to send soft cancel" err)]
             else []
         | None =>
             TimeAfter 5 ::
             match second i with
             | ContextDoneFirst => []
             | TimerFired => [Cancel]
             end
         end
     end
  ++ [SignalStop; CloseChannel].

Definition is_SendSoftCancel (m : Move) : bool :=
  match m with SendSoftCancel => true | _ => false end.

Definition is_Cancel (m : Move) : bool :=
  match m with Cancel => true | _ => false end.

(** The number of SoftCancel frames handed to [Send]. *)
Definition soft_cancels (moves : list Move) : nat :=
  length (filter is_SendSoftCancel moves).

(** Whether the session's context is canceled by these moves: [cancel] is
    the function that cancels it. *)
Definition cancels (moves : list Move) : bool := existsb is_Cancel moves.

(** [connector.RunCommandRequest_Command] *)
Record Command : Type := { OsArgs : list string; Cwd : string }.

(** How a run of [runRemote] is driven: the name the command was called
    as, what [initRemoteCommand], [os.Getwd], [userD.RunCommand] and the
    first [Send] return, and the rounds of the output pump, from a context
    that is canceled already or not. *)
Record Invocation : Type :=
  { CalledAs : string;
    init_result : option error;
    Getwd_result : string * option error;
    RunCommand_result : option error;
    Command_result : option error;
    canceled_at_start : bool;
    output : list cli.Turn }.

(** A run of [runRemote]: what it comes to, the Command frames sent, what
    it prints on stderr, whether the input and interrupt pumps are
    started, the deferred [cancel] calls, and the [Write] calls of the
    output pump. *)
Record Session : Type :=
  { result : cli.Outcome;
    commands : list Command;
    printed_errors : list fmt.Call;
    pumps_started : bool;
    cancel_calls : nat;
    output_writes : list cli.WriteCall }.

Definition Fprintf_call (text : string) (err : error) : fmt.Call :=
  {| fmt.format := (text ++ ": %v" ++ cli.newline)%string;
     fmt.operands := [fmt.OpError err] |}.

Section RunRemote.

Variable result_is_empty : connector.Result -> bool.
Variable error_of : connector.Result -> error.

(** [func runRemote(cmd, args)] *)
Definition runRemote (i : Invocation) (args : list string) : Session :=
  match init_result i with
  | Some err =>
      {| result := cli.Returned (Some err); commands := [];
         printed_errors := []; pumps_started := false; cancel_calls := 0;
         output_writes := [] |}
  | None =>
      match snd (Getwd_result i) with
      | Some err =>
          {| result := cli.Returned (Some err); commands := [];
             printed_errors := []; pumps_started := false; cancel_calls := 0;
             output_writes := [] |}
      | None =>
          match RunCommand_result i with
          | Some err =>
              {| result := cli.Returned (Some err); commands := [];
                 printed_errors := [Fprintf_call "failed start command" err];
                 pumps_started := false; cancel_calls := 1;
                 output_writes := [] |}
          | None =>
              let command := {| OsArgs := CalledAs i :: args;
                                Cwd := fst (Getwd_result i) |} in
              match Command_result i with
              | Some err =>
                  {| result := cli.Returned (Some err);
                     commands := [command];
                     printed_errors := [Fprintf_call "failed to send" err];
                     pumps_started := false; cancel_calls := 1;
                     output_writes := [] |}
              | None =>
                  let run := cli.stdoutAndStderrPump result_is_empty error_of
                               (canceled_at_start i) (output i) in
                  {| result := cli.outcome run;
                     commands := [command];
                     printed_errors := [];
                     pumps_started := true;
                     cancel_calls := match cli.outcome run with
                                     | cli.Blocked => 0
                                     | _ => 1
                                     end;
                     output_writes := cli.writes run |}
              end
          end
      end
  end.

End RunRemote.

End session.

(** ** Annotations and the list of remote commands *)

Module remote.

Local Open Scope list_scope.

(** A Go [map[string]string]. *)
Definition StringMap : Type := string -> option string.

Definition empty : StringMap := fun _ => None.

(** [m[key] = value] *)
Definition store (key value : string) (m : StringMap) : StringMap :=
  fun k => if String.eqb k key then Some value else m k.

Section Annotations.

(** The annotation keys and values of package [ann]. *)
Variables Session RootDaemon UserDaemon Required Optional : string.

(** [func initRemoteCommand]: the annotations of the command when
    [cliutil.InitCommand] is called ([None] is the nil map), and what that
    call returns. *)
Definition initRemoteCommand (annotations : option StringMap)
    (InitCommand_result : option error) : StringMap * option error :=
  let ca := match annotations with
            | None => empty
            | Some ca => ca
            end in
  (store RootDaemon Required (store Session Required ca), InitCommand_result).

Section Groups.

(** [cliutil.CommandGroups] and the results of the calls that produce it. *)
Variable CommandGroups : Type.
Variable make_CommandGroups : CommandGroups.
Variable GetCommandsForLocal : error -> CommandGroups.

(** How a call of [getRemoteCommands] is driven: what [cliutil.InitCommand]
    returns, whether a user daemon is there, and what [ListCommands] and
    [cliutil.RPCToCommands] return. *)
Record Listing : Type :=
  { InitCommand_result : option error;
    user_daemon : bool;
    ListCommands_result : option error;
    RPCToCommands_result : CommandGroups * option error }.

(** What a call of [getRemoteCommands] leaves: the groups returned ([None]
    is nil), the error returned, the annotations of the command, and the
    package variable [userDaemonRunning]. *)
Record Listed : Type :=
  { groups : option CommandGroups;
    err : option error;
    Annotations : StringMap;
    userDaemonRunning : bool }.

(** [func getRemoteCommands]. Inside the [if userD != nil] block [err] is
    a variable of that block, declared by [remote, err := ...]; the result
    parameter [err] is never assigned. *)
Definition getRemoteCommands (l : Listing) (forceStart : bool)
    (running : bool) : Listed :=
  let av := if forceStart then Required else Optional in
  let annotations := store UserDaemon av empty in
  match InitCommand_result l with
  | Some e =>
      {| groups := None; err := Some e; Annotations := annotations;
         userDaemonRunning := running |}
  | None =>
      if user_daemon l then
        match ListCommands_result l with
        | Some e =>
            {| groups := None;
               err := Some (errors.Errorf "unable to call ListCommands: " e "");
               Annotations := annotations;
               userDaemonRunning := running |}
        | None =>
            {| groups :=
                 Some match snd (RPCToCommands_result l) with
                      | Some e => GetCommandsForLocal e
                      | None => fst (RPCToCommands_result l)
                      end;
               err := None;
               Annotations := annotations;
               userDaemonRunning := true |}
        end
      else
        {| groups := Some make_CommandGroups; err := None;
           Annotations := annotations; userDaemonRunning := running |}
  end.

End Groups.

End Annotations.

End remote.

(** ** Further concrete runs *)

Module scenario.

Local Open Scope list_scope.

Definition root_with_errors : daemon.Process :=
  {| daemon.Geteuid := 0; daemon.Getpid := 4242;
     daemon.DisplayVersion := "v1.0.0";
     daemon.runErrors := [errors.New "listen: address already in use";
                          errors.New "teleproxy initial launch"] |}.

(** The socket is free and the server runs until it is stopped. *)
Definition serving : lifecycle.Host :=
  {| lifecycle.DaemonSocketName := "/var/run/edgectl.socket";
     lifecycle.Listen_result := None;
     lifecycle.Chmod_result := None;
     lifecycle.Serve_result := None |}.

(** Another process listens on the socket. *)
Definition occupied : lifecycle.Host :=
  {| lifecycle.DaemonSocketName := "/var/run/edgectl.socket";
     lifecycle.Listen_result := Some (errors.New "address already in use");
     lifecycle.Chmod_result := None;
     lifecycle.Serve_result := None |}.

(** An interrupt arrives while a connector is running; its [Quit] fails. *)
Definition interrupted_with_connector : lifecycle.Surroundings :=
  {| lifecycle.wake := lifecycle.BySignal "interrupt";
     lifecycle.connector_socket_exists := true;
     lifecycle.Dial_result := None;
     lifecycle.Quit_result := Some (errors.New "transport is closing") |}.

(** The input pump's rounds. *)

Definition read (s : string) (e : option error) : session.Round :=
  {| session.done_before := false;
     session.Read := {| session.chunk := list_byte_of_string s;
                        session.read_error := e |};
     session.Send_result := None;
     session.done_after := false |}.

(** The last bytes of the input arrive together with the end of input. *)
Definition last_bytes_with_EOF : list session.Round :=
  [read "ls" None; read "-l" (Some errors.io_EOF);
   read "" (Some errors.io_EOF)].

(** The stream breaks while the second chunk is sent. *)
Definition send_breaks : list session.Round :=
  [read "ls" None;
   {| session.done_before := false;
      session.Read := {| session.chunk := list_byte_of_string "-l";
                         session.read_error := None |};
      session.Send_result := Some (errors.New "transport is closing");
      session.done_after := false |};
   read "more" None].

(** The output pump's rounds. *)

Definition disk_full : error := errors.New "no space left on device".

(** A Data frame whose write fails. *)
Definition unwritable (s : string) : cli.Turn :=
  {| cli.canceled_before := false;
     cli.Recv := cli.RecvFrame
                   {| connector.sr_Data :=
                        Some {| connector.Data := sample.bytes s;
                                connector.ErrorCategory := 0 |};
                      connector.Final := false |};
     cli.canceled_during := false;
     cli.Write := Some disk_full |}.

(** A frame that is neither final nor carries data. *)
Definition hollow : cli.Turn :=
  sample.frame {| connector.sr_Data := None; connector.Final := false |}.

(** A Data frame during whose round the context is canceled. *)
Definition interrupted (s : string) : cli.Turn :=
  {| cli.canceled_before := false;
     cli.Recv := cli.Recv (sample.data 0 s);
     cli.canceled_during := true;
     cli.Write := None |}.

Definition write_fails : list cli.Turn :=
  [sample.data 0 "a"; unwritable "b"; sample.data 0 "c"].

Definition hollow_frame : list cli.Turn :=
  [sample.data 0 "a"; hollow; sample.data 0 "c"].

Definition canceled_midway : list cli.Turn :=
  [sample.data 0 "a"; interrupted "b"; sample.data 0 "c"].

(** Runs of [runRemote]. *)

(** The stream cannot be opened. *)
Definition no_daemon : session.Invocation :=
  {| session.CalledAs := "list";
     session.init_result := None;
     session.Getwd_result := ("/home/dev", None);
     session.RunCommand_result := Some (errors.New "connection refused");
     session.Command_result := None;
     session.canceled_at_start := false;
     session.output := [] |}.

(** The command runs remotely and fails there. *)
Definition list_pods : session.Invocation :=
  {| session.CalledAs := "list";
     session.init_result := None;
     session.Getwd_result := ("/home/dev", None);
     session.RunCommand_result := None;
     session.Command_result := None;
     session.canceled_at_start := false;
     session.output := sample.failed_command |}.

(** Annotations and listings. *)

Definition user_daemon_optional : remote.StringMap :=
  remote.store "userd" "optional" remote.empty.

(** The local commands shown when the remote ones cannot be used. *)
Definition local_commands (e : error) : list string :=
  ["help"; ("status: " ++ errors.Error e)%string].

(** The user daemon lists its commands but they cannot be converted. *)
Definition unconvertible : remote.Listing (list string) :=
  {| remote.InitCommand_result := None;
     remote.user_daemon := true;
     remote.ListCommands_result := None;
     remote.RPCToCommands_result :=
       ([], Some (errors.New "unknown command kind")) |}.

(** Runs of the interrupt pump. *)

(** An interrupt is forwarded and the command does not end in time. *)
Definition ignored_interrupt : session.Interrupt :=
  {| session.first := session.SignalReceived (Some "interrupt");
     session.SoftCancel_result := None;
     session.done_at_failure := false;
     session.second := session.TimerFired |}.

(** A termination request is forwarded and the command winds down. *)
Definition honoured_terminate : session.Interrupt :=
  {| session.first := session.SignalReceived (Some "terminated");
     session.SoftCancel_result := None;
     session.done_at_failure := false;
     session.second := session.ContextDoneFirst |}.


End scenario.

(** ** Errors and formatting *)

Lemma errors_eqb_spec (a b : error) : reflect (a = b) (errors.eqb a b).
Proof.
  revert b; induction a as [|s|s1 w IH s2]; intros [|t|t1 v t2]; simpl;
    try (constructor; congruence).
  - destruct (String.eqb_spec s t); constructor; congruence.
  - destruct (String.eqb_spec s1 t1); simpl; [|constructor; congruence].
    destruct (IH v); simpl; [|constructor; congruence].
    destruct (String.eqb_spec s2 t2); constructor; congruence.
Qed.

Lemma errors_eqb_EOF (e : error) :
  errors.eqb e errors.io_EOF = true <-> e = errors.io_EOF.
Proof. destruct (errors_eqb_spec e errors.io_EOF); split; congruence. Qed.

Lemma append_empty_r (s : string) : (s ++ "")%string = s.
Proof. induction s as [|c s IH]; simpl; congruence. Qed.

(** A format without ['%'] is printed as it is. *)
Lemma Sprintf_percent_free (s : string) :
  fmt.percent_free s = true -> fmt.Sprintf s [] = Some s.
Proof.
  induction s as [|c rest IH]; simpl; [reflexivity|].
  destruct (Ascii.eqb c "%"); simpl; [discriminate|].
  intros H; rewrite (IH H); reflexivity.
Qed.

(** ["<prefix>: %v"] applied to an error prints the prefix and its text. *)
Lemma Sprintf_pause (e : error) :
  fmt.Sprintf "pause: %v" [fmt.OpError e]
  = Some ("pause: " ++ errors.Error e)%string.
Proof. simpl. rewrite append_empty_r. reflexivity. Qed.

Lemma Sprintf_resume (e : error) :
  fmt.Sprintf "resume: %v" [fmt.OpError e]
  = Some ("resume: " ++ errors.Error e)%string.
Proof. simpl. rewrite append_empty_r. reflexivity. Qed.

(** ** Pause, Resume and Status *)

Section DaemonStateMachine.

Import rpc daemon.
Local Open Scope list_scope.

Ltac run_handler :=
  unfold Status, Pause, Resume, makeNetOverride, bind, ret, get_network,
    set_network, SocketExists_ConnectorSocketName, IsOkay, Close, Logf,
    append_log, logged; simpl.

(** C10. Whenever the override reference is nil, [Pause] answers
    [AlreadyPaused] with no RPC error and leaves the whole daemon state as it
    was, whether or not the downstream connector socket exists: the nil test
    comes first. *)
Theorem Pause_nil_AlreadyPaused (w : World) :
  network (d w) = None ->
  Pause w = (({| pause_Error := PauseResponse_AlreadyPaused;
                 pause_ErrorText := "" |}, None), w).
Proof. intros H. run_handler. rewrite H. reflexivity. Qed.

Lemma Pause_nil_AlreadyPaused_witness :
  connector_socket sample.paused_connected = true /\
  Pause sample.paused_connected
  = (({| pause_Error := PauseResponse_AlreadyPaused;
         pause_ErrorText := "" |}, None), sample.paused_connected).
Proof.
  split; [reflexivity|].
  apply (Pause_nil_AlreadyPaused sample.paused_connected). reflexivity.
Defined.

(** C1, as stated, fails: with the connector socket present and a nil
    override, [Pause] does not answer [ConnectedToCluster]. *)
Lemma Pause_socket_nil_counterexample :
  ~ (connector_socket sample.paused_connected = true ->
     pause_Error (fst (fst (Pause sample.paused_connected)))
     = PauseResponse_ConnectedToCluster
     /\ snd (Pause sample.paused_connected) = sample.paused_connected).
Proof.
  intros H. destruct (H eq_refl) as [E _]. vm_compute in E. discriminate E.
Qed.

(** C1, amended. Whenever the downstream connector socket exists, [Pause]
    leaves the daemon state (override reference, resource objects, log)
    unchanged, whether the override reference is nil or not; and when the
    reference is non-nil it answers [ConnectedToCluster] with no RPC
    error. *)
Theorem Pause_socket_exists (w : World) :
  connector_socket w = true ->
  snd (Pause w) = w /\
  (network (d w) <> None ->
   fst (Pause w) = ({| pause_Error := PauseResponse_ConnectedToCluster;
                       pause_ErrorText := "" |}, None)).
Proof.
  intros H. run_handler.
  destruct (network (d w)) as [n|]; rewrite ?H; simpl.
  - split; [reflexivity|]. intros _. reflexivity.
  - split; [reflexivity|]. intros N. contradiction N. reflexivity.
Qed.

Lemma Pause_socket_exists_witness :
  snd (Pause sample.running_connected) = sample.running_connected /\
  fst (Pause sample.running_connected)
  = ({| pause_Error := PauseResponse_ConnectedToCluster;
        pause_ErrorText := "" |}, None).
Proof.
  destruct (Pause_socket_exists sample.running_connected eq_refl) as [U A].
  split; [exact U|]. apply A. discriminate.
Defined.

(** C2. In every daemon state (so in every reachable one) [Status] returns
    without an RPC error and without changing the state; its answer is
    computed from the override reference as it is at the call: [Paused]
    exactly when the reference is nil, [NoNetwork] exactly when it is
    non-nil and [IsOkay] reports false, and no error code exactly when it is
    non-nil and okay. *)
Theorem Status_derived (w : World) :
  exists resp,
    Status w = ((resp, None), w) /\
    (status_Error resp = DaemonStatusResponse_Paused
     <-> network (d w) = None) /\
    (status_Error resp = DaemonStatusResponse_NoNetwork
     <-> exists n, network (d w) = Some n /\ okay (heap w n) = false) /\
    (status_Error resp = DaemonStatusResponse_Unspecified
     <-> exists n, network (d w) = Some n /\ okay (heap w n) = true).
Proof.
  run_handler. destruct (network (d w)) as [n|] eqn:N.
  - destruct (okay (heap w n)) eqn:K; simpl; eexists; (split; [reflexivity|]);
      simpl; repeat split; try discriminate;
      try (intros [m [Hm Hk]]; congruence);
      try (intros _; exists n; split; congruence).
  - eexists; split; [reflexivity|]; simpl; repeat split; try discriminate;
      intros [m [Hm _]]; discriminate.
Qed.

(** C3. With a non-nil override [n] and no downstream connector socket,
    [Pause] calls [Close] on [n] (once, and on no other object); when
    [Close] returns an error it answers [UnexpectedPauseError] with that
    error's text and logs it, otherwise it answers without an error code
    and logs nothing; in both cases the override reference is nil
    afterwards and no RPC error is returned. *)
Theorem Pause_closes_and_clears (w : World) (n : ref) :
  network (d w) = Some n ->
  connector_socket w = false ->
  exists resp w',
    Pause w = ((resp, None), w') /\
    network (d w') = None /\
    close_calls (heap w' n) = S (close_calls (heap w n)) /\
    (forall r, r <> n -> heap w' r = heap w r) /\
    match close_error (heap w n) with
    | Some e =>
        resp = {| pause_Error := PauseResponse_UnexpectedPauseError;
                  pause_ErrorText := errors.Error e |} /\
        log w' = log w ++ [Process_Logf {| fmt.format := "pause: %v";
                                           fmt.operands := [fmt.OpError e] |}]
    | None =>
        resp = {| pause_Error := PauseResponse_Unspecified;
                  pause_ErrorText := "" |} /\
        log w' = log w
    end.
Proof.
  intros N S. run_handler. rewrite N, S.
  destruct (close_error (heap w n)) as [e|] eqn:C; simpl;
    do 2 eexists; (split; [reflexivity|]); simpl;
    rewrite Nat.eqb_refl; simpl;
    (split; [reflexivity|]); (split; [reflexivity|]);
    (split; [|split; reflexivity]);
    intros r R; apply Nat.eqb_neq in R; rewrite R; reflexivity.
Qed.

Lemma Pause_closes_and_clears_witness :
  exists resp w',
    Pause sample.running_stuck = ((resp, None), w') /\
    network (d w') = None /\
    close_calls (heap w' 1) = 1 /\
    resp = {| pause_Error := PauseResponse_UnexpectedPauseError;
              pause_ErrorText := "teleproxy: exit status 1" |} /\
    log w' = [Process_Logf
                {| fmt.format := "pause: %v";
                   fmt.operands :=
                     [fmt.OpError (errors.New "teleproxy: exit status 1")] |}].
Proof.
  destruct (Pause_closes_and_clears sample.running_stuck 1 eq_refl eq_refl)
    as [resp [w' [E [N [C [_ [R L]]]]]]].
  exists resp, w'. repeat split; assumption.
Defined.

(** C4. [Resume] has exactly three cases. With a non-nil, okay override it
    answers [NotPaused]; with a non-nil override that is not okay it
    answers [ReEstablishing]; in both the daemon state, and so the
    override, stays as it was. With a nil override it asks for a new one:
    when the installation fails it answers [UnexpectedResumeError] with the
    error's text, logs it, and the override reference is still nil; when
    it succeeds it answers without an error code and the new override is
    the owned one. No case returns an RPC error. *)
Theorem Resume_three_cases (w : World) :
  match network (d w) with
  | Some n =>
      if okay (heap w n) then
        Resume w = (({| resume_Error := ResumeResponse_NotPaused;
                        resume_ErrorText := "" |}, None), w)
      else
        Resume w = (({| resume_Error := ResumeResponse_ReEstablishing;
                        resume_ErrorText := "" |}, None), w)
  | None =>
      exists w',
        heap w' = heap w /\
        match installer w with
        | InstallFails e =>
            Resume w
            = (({| resume_Error := ResumeResponse_UnexpectedResumeError;
                   resume_ErrorText := errors.Error e |}, None), w') /\
            network (d w') = None /\
            log w' = log w ++ [Process_Logf
                                 {| fmt.format := "resume: %v";
                                    fmt.operands := [fmt.OpError e] |}]
        | InstallYields r =>
            Resume w = (({| resume_Error := ResumeResponse_Unspecified;
                            resume_ErrorText := "" |}, None), w') /\
            network (d w') = Some r /\
            log w' = log w
        end
  end.
Proof.
  run_handler. destruct (network (d w)) as [n|] eqn:N.
  - destruct (okay (heap w n)); reflexivity.
  - destruct (installer w) as [e|r]; simpl; eexists;
      (split; [|split; [reflexivity|]]); simpl; try reflexivity.
    all: split; [first [exact N | reflexivity] | reflexivity].
Qed.

(** A paused daemon whose installer fails stays paused. *)
Example Resume_failing_install :
  fst (Resume sample.paused_failing)
  = ({| resume_Error := ResumeResponse_UnexpectedResumeError;
        resume_ErrorText := "teleproxy initial launch" |}, None)
  /\ network (d (snd (Resume sample.paused_failing))) = None.
Proof. split; reflexivity. Qed.

(** Pausing and asking again: the second answer is computed afresh. *)
Example Status_follows_Pause :
  status_Error (fst (fst (Status sample.running_stuck)))
  = DaemonStatusResponse_NoNetwork
  /\ status_Error (fst (fst (Status (snd (Pause sample.running_stuck)))))
     = DaemonStatusResponse_Paused.
Proof. split; reflexivity. Qed.

End DaemonStateMachine.

(** ** The start-up privilege check *)

Section Startup.

Import daemon.
Local Open Scope list_scope.

(** C9. Started by a process whose effective user is not root, [Run]
    returns the error "edgectl daemon must run as root" before doing
    anything else: no logger is set up, no worker is supervised, and the
    supervisor, inside which the daemon's socket would be created, is never
    run. *)
Theorem Run_refuses_non_root (os : Process) (dns fallback : string) :
  Geteuid os <> 0%Z ->
  Run os dns fallback = (errors.New "edgectl daemon must run as root", []).
Proof.
  intros H. unfold Run. apply Z.eqb_neq in H. rewrite H. reflexivity.
Qed.

Lemma Run_refuses_non_root_witness :
  Run sample.user "10.0.0.10" "8.8.8.8"
  = (errors.New "edgectl daemon must run as root", []).
Proof.
  apply (Run_refuses_non_root sample.user). vm_compute. discriminate.
Defined.

(** Started as root, [Run] supervises both workers and runs the
    supervisor. *)
Lemma Run_as_root_starts (os : Process) (dns fallback : string) :
  Geteuid os = 0%Z ->
  In (Supervise "daemon" []) (snd (Run os dns fallback)) /\
  In (Supervise "setup" ["daemon"]) (snd (Run os dns fallback)) /\
  In SupervisorRun (snd (Run os dns fallback)).
Proof.
  intros H. unfold Run. rewrite H. simpl. intuition.
Qed.

End Startup.

(** ** The Logger stream *)

Section LoggerStream.

Import rpc daemon.
Local Open Scope list_scope.

Lemma logged_logged (w : World) (a b : list LogEntry) :
  logged (logged w a) b = logged w (a ++ b).
Proof. unfold logged; simpl. rewrite <- app_assoc. reflexivity. Qed.

(** The loop hands every message that precedes the first receive error to
    the logger, in order, and then goes on with the rest. *)
Lemma Logger_loop_lines (texts : list string) (rest : list RecvResult)
    (ack : option error) (w : World) :
  Logger_loop (map line texts ++ rest) ack w
  = Logger_loop rest ack (logged w (map printed texts)).
Proof.
  revert w; induction texts as [|t texts IH]; intros w; simpl.
  - destruct rest as [|[m|e] rest]; simpl; unfold logged;
      rewrite app_nil_r; destruct w; reflexivity.
  - unfold bind, Printf, append_log; simpl. rewrite IH, logged_logged.
    reflexivity.
Qed.

(** C8, as stated, fails: the client closes the stream, the acknowledgement
    cannot be sent, and [Logger] returns that error. *)
Lemma Logger_close_counterexample :
  ~ (fst (fst (Logger sample.closed_unacknowledged sample.paused_connected))
     = Returned None).
Proof. vm_compute. discriminate. Qed.

(** C8, amended. Every message received before the stream ends is handed to
    the daemon's logger, in the order of arrival, and a text without ['%']
    is printed by it byte for byte. When the client closes the stream
    (the receive returns [io.EOF]) [Logger] sends one empty reply and
    returns what sending it returned, so no error when the reply is sent;
    any other receive error is returned as it is, with no reply sent. *)
Theorem Logger_forwards (texts : list string) (term : error)
    (tail : list RecvResult) (ack : option error) (sent : list Empty)
    (w : World) :
  let server := {| inbound := map line texts ++ RecvErr term :: tail;
                   SendAndClose_result := ack;
                   replies := sent |} in
  let w' := logged w (map printed texts) in
  (term = errors.io_EOF ->
   Logger server w = ((Returned ack, sent ++ [Empty_value]), w')) /\
  (term <> errors.io_EOF ->
   Logger server w = ((Returned (Some term), sent), w')) /\
  (forall text, In text texts -> fmt.percent_free text = true ->
   fmt.rendered {| fmt.format := text; fmt.operands := [] |} = Some text).
Proof.
  intros server w'. unfold Logger, bind, ret; simpl.
  rewrite Logger_loop_lines; simpl. fold w'.
  repeat split.
  - intros ->. reflexivity.
  - intros H. destruct (errors_eqb_spec term errors.io_EOF) as [E|_];
      [contradiction|]. simpl. rewrite app_nil_r. reflexivity.
  - intros text _ P. apply Sprintf_percent_free, P.
Qed.

Lemma Logger_forwards_witness :
  Logger sample.two_lines sample.paused_connected
  = ((Returned None, [Empty_value]),
     logged sample.paused_connected
            [printed "connecting"; printed "connected"])
  /\ Logger sample.broken sample.paused_connected
     = ((Returned (Some (errors.New "connection reset by peer")), []),
        logged sample.paused_connected [printed "connecting"])
  /\ fmt.rendered {| fmt.format := "connecting"; fmt.operands := [] |}
     = Some "connecting".
Proof.
  split; [|split].
  - apply (Logger_forwards ["connecting"; "connected"] errors.io_EOF []
             None [] sample.paused_connected). reflexivity.
  - apply (Logger_forwards ["connecting"]
             (errors.New "connection reset by peer") []
             None [] sample.paused_connected). discriminate.
  - apply (Logger_forwards ["connecting"] errors.io_EOF [] None []
             sample.paused_connected); [left|]; reflexivity.
Defined.

(** While the client neither sends nor closes, [Logger] stays in [Recv]. *)
Lemma Logger_blocks (texts : list string) (ack : option error)
    (sent : list Empty) (w : World) :
  Logger {| inbound := map line texts; SendAndClose_result := ack;
            replies := sent |} w
  = ((Blocked, sent), logged w (map printed texts)).
Proof.
  unfold Logger, bind, ret; simpl.
  rewrite <- (app_nil_r (map line texts)), Logger_loop_lines. simpl.
  rewrite app_nil_r. reflexivity.
Qed.

(** The received text is the logger's format: a line that ends in a
    percent sign is not printed as it was received. *)
Example Logger_percent_line :
  map (fun e => match e with
                | Logger_Printf c | Process_Logf c => fmt.rendered c
                end)
      (log (snd (Logger sample.percent_line sample.paused_connected)))
  = [Some "100%!(NOVERB)"].
Proof. reflexivity. Qed.

End LoggerStream.

(** ** The output pump *)

Section OutputPump.

Import connector cli.
Local Open Scope list_scope.

Variable result_is_empty : Result -> bool.
Variable error_of : Result -> error.

Local Abbreviation pump := (stdoutAndStderrPump result_is_empty error_of).

Ltac pump_cases :=
  repeat match goal with
    | |- context [if ?b then _ else _] => destruct b eqn:?; simpl in *
    | H : context [if ?b then _ else _] |- _ => destruct b eqn:?; simpl in *
    | |- context [match ?x with _ => _ end] => destruct x eqn:?; simpl in *
    | H : context [match ?x with _ => _ end] |- _ =>
        destruct x eqn:?; simpl in *
    end.

(** The [Write] calls of a run are those the received frames ask for. *)
Lemma pump_writes_routed (script : list Turn) : forall canceled,
  writes (pump canceled script)
  = routed (frames_received (reads (pump canceled script)) script).
Proof.
  induction script as [|t rest IH]; intros c; simpl.
  - destruct c; reflexivity.
  - destruct (c || canceled_before t); simpl; [reflexivity|].
    destruct (Recv t) as [sr|e]; simpl.
    + destruct (Final sr) eqn:F; simpl; rewrite ?F; [reflexivity|].
      destruct (sr_Data sr) as [r|] eqn:D; simpl; rewrite ?F, ?D;
        [|reflexivity].
      f_equal. destruct (Write t); simpl; [destruct (canceled_during t)|];
        simpl; try reflexivity. apply IH.
    + destruct (errors.Is e errors.io_EOF || canceled_during t); reflexivity.
Qed.

(** A run that receives more than one round went through the first one
    and continued with the rest. *)
Lemma pump_continues (canceled : bool) (t : Turn) (rest : list Turn) :
  1 < reads (pump canceled (t :: rest)) ->
  reads (pump canceled (t :: rest))
  = S (reads (pump (canceled_during t) rest)) /\
  outcome (pump canceled (t :: rest))
  = outcome (pump (canceled_during t) rest).
Proof.
  cbn [stdoutAndStderrPump].
  destruct (canceled || canceled_before t); [simpl; lia|].
  destruct (Recv t) as [sr|e].
  - cbv zeta. destruct (Final sr); [simpl; lia|].
    destruct (sr_Data sr); [|simpl; lia].
    destruct (Write t); [destruct (canceled_during t); simpl; lia|].
    intros _. split; reflexivity.
  - destruct (errors.Is e errors.io_EOF || canceled_during t); simpl; lia.
Qed.

(** A round is received only if every round before it went through: the
    run then continues from that round with a live context. *)
Lemma pump_reaches (script : list Turn) : forall canceled k t,
  nth_error script k = Some t ->
  k < reads (pump canceled script) ->
  exists rest,
    canceled_before t = false /\
    reads (pump canceled script) = k + reads (pump false (t :: rest)) /\
    outcome (pump canceled script) = outcome (pump false (t :: rest)).
Proof.
  induction script as [|t0 rest IH]; intros c k t N K.
  - destruct k; discriminate N.
  - destruct k as [|k].
    + injection N as ->. exists rest.
      cbn [stdoutAndStderrPump] in K.
      destruct c; [simpl in K; lia|].
      destruct (canceled_before t); [simpl in K; lia|].
      repeat split; reflexivity.
    + cbn [nth_error] in N.
      destruct (pump_continues c t0 rest ltac:(lia)) as [R0 O0].
      rewrite R0 in K.
      destruct (IH (canceled_during t0) k t N ltac:(lia))
        as [rest' [B [R O]]].
      exists rest'. rewrite R0, O0, R, O.
      split; [exact B|split; [lia|reflexivity]].
Qed.

(** C5, as stated, fails in both directions: an end-of-stream that arrives
    while the context is live ends the pump with no error, and a receive
    error other than end-of-stream is not reported once the context is
    canceled. *)
Lemma pump_eof_counterexample :
  ~ (outcome (sample.pump false [sample.failing errors.io_EOF false])
     = Returned None
     <-> false || canceled_before (sample.failing errors.io_EOF false)
         || canceled_during (sample.failing errors.io_EOF false) = true)
  /\ outcome (sample.pump false
                [sample.failing (errors.New "connection reset") true])
     = Returned None.
Proof.
  split; [|reflexivity].
  intros [H _]. specialize (H eq_refl). discriminate H.
Qed.

(** C5, amended. When a receive of the output pump fails, before any final
    frame, the pump reads nothing more; it ends with no error when the
    error is (or wraps) end-of-stream, whether or not the context has been
    canceled, and also when the context is canceled by the time the error
    is looked at; any other receive error is returned, wrapped as "failed
    to read stdout/stderr stream". *)
Theorem pump_receive_error (script : list Turn) (canceled : bool) (k : nat)
    (t : Turn) (err : error) :
  nth_error script k = Some t ->
  Recv t = RecvErr err ->
  k < reads (pump canceled script) ->
  reads (pump canceled script) = S k /\
  outcome (pump canceled script)
  = Returned (if errors.Is err errors.io_EOF || canceled_during t
              then None
              else Some (errors.Errorf "failed to read stdout/stderr stream: "
                                       err newline)).
Proof.
  intros N E K.
  destruct (pump_reaches script canceled k t N K) as [rest [B [R O]]].
  rewrite R, O. cbn [stdoutAndStderrPump]. rewrite B, E. simpl.
  destruct (errors.Is err errors.io_EOF || canceled_during t); simpl;
    split; (lia || reflexivity).
Qed.

(** Rounds that deliver Data frames to a live context are all received and
    written, and the pump goes on with what follows them. *)
Lemma pump_live_prefix (pre rest : list Turn) :
  forallb live_data pre = true ->
  reads (pump false (pre ++ rest))
  = length pre + reads (pump false rest) /\
  outcome (pump false (pre ++ rest)) = outcome (pump false rest) /\
  writes (pump false (pre ++ rest))
  = routed (frames_received (length pre) pre) ++ writes (pump false rest).
Proof.
  induction pre as [|t pre IH]; intros L; [repeat split|].
  cbn [forallb] in L. apply andb_true_iff in L as [Lt L].
  specialize (IH L) as [R [O W]].
  unfold live_data in Lt.
  destruct t as [cb [sr|e] cd [we|]]; simpl in Lt;
    try (rewrite ?andb_false_r in Lt; discriminate Lt).
  destruct cb, cd; try discriminate Lt.
  destruct sr as [[r|] [|]]; try discriminate Lt.
  cbn [app stdoutAndStderrPump canceled_before canceled_during Recv Write
       orb Final sr_Data length frames_received routed].
  cbn [received wrote reads outcome writes].
  rewrite R, O, W. repeat split.
Qed.

(** A session whose Data frames all go through and which then receives a
    final frame reads exactly up to that frame. *)
Lemma pump_clean_session (pre post : list Turn)
    (result : option Result) (late : bool) (w : option error) :
  forallb live_data pre = true ->
  let final := {| canceled_before := false;
                  Recv := RecvFrame {| sr_Data := result; Final := true |};
                  canceled_during := late; Write := w |} in
  reads (pump false (pre ++ final :: post)) = S (length pre) /\
  outcome (pump false (pre ++ final :: post))
  = Returned match result with
             | Some r => FromResult result_is_empty error_of r
             | None => None
             end /\
  writes (pump false (pre ++ final :: post))
  = routed (frames_received (length pre) pre).
Proof.
  intros L final.
  destruct (pump_live_prefix pre (final :: post) L) as [R [O W]].
  rewrite R, O, W. simpl. rewrite app_nil_r. repeat split. lia.
Qed.

(** A round that starts with the context live is received. *)
Lemma pump_receives (t : Turn) (rest : list Turn) :
  canceled_before t = false -> 1 <= reads (pump false (t :: rest)).
Proof.
  intros B. cbn [stdoutAndStderrPump]. rewrite B.
  cbn [orb received reads]. lia.
Qed.

(** C7. In every run of the output pump, the [Write] calls are exactly the
    bytes of the non-terminal Data frames received, each on stdout when its
    [ErrorCategory] is 0 and on stderr otherwise, in the order of arrival;
    when a final frame is received the pump reads nothing more and returns
    the error derived from its result: the derived error when the result
    is present and not empty, nil when it is absent or empty. And the pump
    does go on: started with a live context, after Data frames that were
    all written while the context stayed live, it receives the round that
    follows them. *)
Theorem pump_routes_and_finishes (script : list Turn) (canceled : bool) :
  writes (pump canceled script)
  = routed (frames_received (reads (pump canceled script)) script)
  /\
  (forall k t sr,
    nth_error script k = Some t ->
    Recv t = RecvFrame sr ->
    Final sr = true ->
    k < reads (pump canceled script) ->
    reads (pump canceled script) = S k /\
    outcome (pump canceled script)
    = Returned match sr_Data sr with
               | Some r => if result_is_empty r then None
                           else Some (error_of r)
               | None => None
               end)
  /\
  (canceled = false ->
   forall pre t post,
     script = pre ++ t :: post ->
     forallb live_data pre = true ->
     canceled_before t = false ->
     length pre < reads (pump canceled script)).
Proof.
  split; [apply pump_writes_routed|]. split.
  - intros k t sr N E F K.
    destruct (pump_reaches script canceled k t N K) as [rest [B [R O]]].
    rewrite R, O. cbn [stdoutAndStderrPump]. rewrite B, E. simpl.
    rewrite F. simpl. split; [lia|]. reflexivity.
  - intros -> pre t post -> L B.
    destruct (pump_live_prefix pre (t :: post) L) as [R _].
    rewrite R. pose proof (pump_receives t post B). lia.
Qed.

End OutputPump.

Lemma pump_receive_error_witness :
  cli.outcome (sample.pump false
             [sample.data 0 "h";
              sample.failing (errors.New "connection reset") false])
  = cli.Returned (Some (errors.Errorf "failed to read stdout/stderr stream: "
                                  (errors.New "connection reset") cli.newline)).
Proof.
  apply (pump_receive_error sample.uncategorized sample.categorized
           [sample.data 0 "h";
            sample.failing (errors.New "connection reset") false]
           false 1 (sample.failing (errors.New "connection reset") false)
           (errors.New "connection reset"));
    [reflexivity | reflexivity | vm_compute; lia].
Defined.

Lemma pump_routes_and_finishes_witness :
  cli.writes (sample.pump false sample.failed_command)
  = [ {| cli.writer := cli.Stdout; cli.written := sample.bytes "out" |};
      {| cli.writer := cli.Stderr; cli.written := sample.bytes "err" |} ]
  /\ cli.reads (sample.pump false sample.failed_command) = 3
  /\ cli.outcome (sample.pump false sample.failed_command)
     = cli.Returned (Some (errors.New "no such pod")).
Proof.
  destruct (pump_routes_and_finishes sample.uncategorized sample.categorized
              sample.failed_command false) as [W [F P]].
  pose proof (P eq_refl [sample.data 0 "out"; sample.data 2 "err"]
                (sample.final (Some sample.no_such_pod))
                [sample.data 0 "late"] eq_refl eq_refl eq_refl) as K.
  destruct (F 2 (sample.final (Some sample.no_such_pod))
              {| connector.sr_Data := Some sample.no_such_pod;
                 connector.Final := true |}
              eq_refl eq_refl eq_refl K) as [R O].
  split; [|split; [exact R | exact O]].
  unfold sample.pump. rewrite W, R. reflexivity.
Defined.

(** [echo hi]: two Data frames and a final frame with an empty result give
    a nil error and both chunks on stdout, in order. *)
Example pump_echo_hi :
  cli.outcome (sample.pump false sample.echo_hi) = cli.Returned None
  /\ cli.writes (sample.pump false sample.echo_hi)
     = [ {| cli.writer := cli.Stdout; cli.written := sample.bytes "h" |};
         {| cli.writer := cli.Stdout; cli.written := sample.bytes "i" |} ]
  /\ cli.CloseSend_calls (sample.pump false sample.echo_hi) = 1.
Proof. repeat split. Qed.

(** ** Sequences of Pause, Resume and Status *)

Section DaemonCalls.

Import rpc daemon.
Local Open Scope list_scope.

Ltac run_calls :=
  unfold Status, Pause, Resume, makeNetOverride, bind, ret, get_network,
    set_network, SocketExists_ConnectorSocketName, IsOkay, Close, Logf,
    append_log, logged; simpl.

Lemma app_one_neq {A : Type} (l : list A) (a : A) : l ++ [a] <> l.
Proof.
  intros E. apply (f_equal (@length A)) in E.
  rewrite length_app in E. simpl in E. lia.
Qed.

(** X1. With no connector socket, a second [Pause] in a row answers
    [AlreadyPaused] and changes nothing, whatever the first one did. *)
Theorem Pause_twice (w : World) :
  connector_socket w = false ->
  Pause (snd (Pause w))
  = (({| pause_Error := PauseResponse_AlreadyPaused;
         pause_ErrorText := "" |}, None), snd (Pause w)).
Proof.
  intros S. run_calls. destruct (network (d w)) as [n|] eqn:N.
  - rewrite S. simpl.
    destruct (close_error (heap w n)); simpl; reflexivity.
  - simpl. rewrite N. reflexivity.
Qed.

Lemma Pause_twice_witness :
  Pause (snd (Pause sample.running_stuck))
  = (({| pause_Error := PauseResponse_AlreadyPaused;
         pause_ErrorText := "" |}, None), snd (Pause sample.running_stuck)).
Proof. apply (Pause_twice sample.running_stuck). reflexivity. Defined.

(** X2. After a [Pause], [Status] reports [Paused] exactly when the [Pause] did
    not answer [ConnectedToCluster]. *)
Theorem Status_after_Pause (w : World) :
  status_Error (fst (fst (Status (snd (Pause w)))))
  = DaemonStatusResponse_Paused
  <-> pause_Error (fst (fst (Pause w))) <> PauseResponse_ConnectedToCluster.
Proof.
  run_calls. destruct (network (d w)) as [n|] eqn:N; simpl.
  - destruct (connector_socket w); simpl.
    + rewrite N. destruct (okay (heap w n)); simpl;
        split; [discriminate | intros H; contradiction H; reflexivity
               | discriminate | intros H; contradiction H; reflexivity].
    + destruct (close_error (heap w n)); simpl;
        split; try reflexivity; discriminate.
  - rewrite N. simpl. split; [discriminate|reflexivity].
Qed.

(** After a [Resume], [Status] reports [Paused] exactly when the [Resume]
    answered [UnexpectedResumeError]. *)
Theorem Status_after_Resume (w : World) :
  status_Error (fst (fst (Status (snd (Resume w)))))
  = DaemonStatusResponse_Paused
  <-> resume_Error (fst (fst (Resume w)))
      = ResumeResponse_UnexpectedResumeError.
Proof.
  run_calls. destruct (network (d w)) as [n|] eqn:N; simpl.
  - destruct (okay (heap w n)) eqn:K; simpl; rewrite N, K; simpl;
      split; discriminate.
  - destruct (installer w) as [e|r]; simpl.
    + rewrite N. simpl. split; reflexivity.
    + destruct (okay (heap w r)); simpl; split; discriminate.
Qed.

(** A [Pause] that releases the override followed by a [Resume] whose
    installation succeeds: the old override has been closed once, the new
    one is the owned one, and the [Resume] answers without an error
    code. *)
Theorem Pause_then_Resume (w : World) (n r : ref) :
  network (d w) = Some n ->
  connector_socket w = false ->
  installer w = InstallYields r ->
  let w' := snd (Resume (snd (Pause w))) in
  fst (Resume (snd (Pause w)))
  = ({| resume_Error := ResumeResponse_Unspecified;
        resume_ErrorText := "" |}, None) /\
  network (d w') = Some r /\
  close_calls (heap w' n) = S (close_calls (heap w n)).
Proof.
  intros N S I. run_calls. rewrite N, S.
  destruct (close_error (heap w n)); simpl; rewrite I; simpl;
    rewrite Nat.eqb_refl; repeat split.
Qed.

Lemma Pause_then_Resume_witness :
  network (d (snd (Resume (snd (Pause sample.running_stuck))))) = Some 0.
Proof.
  apply (Pause_then_Resume sample.running_stuck 1 0); reflexivity.
Defined.

(** X3. [Pause] writes to the log exactly when it answers
    [UnexpectedPauseError]: the rejections [AlreadyPaused] and
    [ConnectedToCluster], and a [Close] that succeeds, are not logged. *)
Theorem Pause_logs_only_unexpected (w : World) :
  log (snd (Pause w)) <> log w
  <-> pause_Error (fst (fst (Pause w))) = PauseResponse_UnexpectedPauseError.
Proof.
  run_calls; destruct (network (d w)) as [n|]; simpl.
  - destruct (connector_socket w); simpl;
      [split; [intros H; contradiction H; reflexivity | discriminate]|].
    destruct (close_error (heap w n)); simpl.
    + split; [reflexivity | intros _; apply app_one_neq].
    + split; [intros H; contradiction H; reflexivity | discriminate].
  - split; [intros H; contradiction H; reflexivity | discriminate].
Qed.

(** X4. An error text is attached to a response only together with the
    code [UnexpectedPauseError], respectively [UnexpectedResumeError]. *)
Theorem ErrorText_only_unexpected (w : World) :
  (pause_ErrorText (fst (fst (Pause w))) <> "" ->
   pause_Error (fst (fst (Pause w)))
   = PauseResponse_UnexpectedPauseError) /\
  (resume_ErrorText (fst (fst (Resume w))) <> "" ->
   resume_Error (fst (fst (Resume w)))
   = ResumeResponse_UnexpectedResumeError).
Proof.
  split; run_calls; destruct (network (d w)) as [n|]; simpl.
  - destruct (connector_socket w); simpl;
      [intros H; contradiction H; reflexivity|].
    destruct (close_error (heap w n)); simpl;
      [reflexivity | intros H; contradiction H; reflexivity].
  - intros H; contradiction H; reflexivity.
  - destruct (okay (heap w n)); simpl; intros H; contradiction H; reflexivity.
  - destruct (installer w); simpl;
      [reflexivity | intros H; contradiction H; reflexivity].
Qed.

Lemma ErrorText_only_unexpected_witness :
  pause_Error (fst (fst (Pause sample.running_stuck)))
  = PauseResponse_UnexpectedPauseError /\
  resume_Error (fst (fst (Resume sample.paused_failing)))
  = ResumeResponse_UnexpectedResumeError.
Proof.
  split.
  - apply (ErrorText_only_unexpected sample.running_stuck).
    vm_compute. discriminate.
  - apply (ErrorText_only_unexpected sample.paused_failing).
    vm_compute. discriminate.
Defined.

End DaemonCalls.

(** ** The daemon's workers *)

Section Lifecycle.

Import daemon lifecycle.
Local Open Scope list_scope.

Lemma reported_lines (errs : list error) :
  flat_map reported
    (map (fun err => printf "- %v" [fmt.OpError err]) errs) = errs.
Proof. induction errs as [|e errs IH]; simpl; congruence. Qed.

Lemma errors_Is_refl (e : error) : errors.Is e e = true.
Proof.
  assert (errors.eqb e e = true) as E
    by (destruct (errors_eqb_spec e e); congruence).
  destruct e; simpl in *; rewrite ?E; reflexivity.
Qed.

(** X5. Started as root, [Run] logs every error the supervisor reports, once
    and in the supervisor's order, each on a line of its own. *)
Theorem Run_reports_every_error (os : Process) (dns fallback : string) :
  Geteuid os = 0%Z ->
  flat_map reported (snd (Run os dns fallback)) = runErrors os.
Proof.
  intros H. unfold Run. rewrite H. simpl.
  rewrite flat_map_app. simpl. rewrite app_nil_r.
  destruct (runErrors os) as [|e errs]; [reflexivity|].
  cbn [length Nat.ltb Nat.leb flat_map reported].
  simpl. rewrite reported_lines. reflexivity.
Qed.

Lemma Run_reports_every_error_witness :
  flat_map reported (snd (Run scenario.root_with_errors "" ""))
  = [errors.New "listen: address already in use";
     errors.New "teleproxy initial launch"].
Proof.
  apply (Run_reports_every_error scenario.root_with_errors). reflexivity.
Defined.

(** X6. The RPC worker signals readiness exactly when the socket was bound and
    its mode set; by then it has listened on the daemon's socket, made it
    accessible to every user, and registered the service. *)
Theorem runGRPCService_ready (h : Host) :
  (In Ready (snd (runGRPCService h))
   <-> Listen_result h = None /\ Chmod_result h = None) /\
  (In Ready (snd (runGRPCService h)) ->
   exists rest,
     snd (runGRPCService h)
     = [NetListen "unix" (DaemonSocketName h);
        Chmod (DaemonSocketName h) 511;
        NewServer; RegisterDaemonServer; GoHandleSignalsAndShutdown; Ready]
       ++ rest).
Proof.
  unfold runGRPCService.
  destruct (Listen_result h) as [e|]; [|destruct (Chmod_result h) as [e|]];
    simpl; split.
  - split; [intros [H|[]]; discriminate H | intros [H _]; discriminate H].
  - intros [H|[]]; discriminate H.
  - split; [intros [H|[H|[]]]; discriminate H | intros [_ H]; discriminate H].
  - intros [H|[H|[]]]; discriminate H.
  - split; [intros _; split; reflexivity | intros _; intuition].
  - intros _. exists [Serve]. reflexivity.
Qed.

Lemma runGRPCService_ready_witness :
  exists rest,
    snd (runGRPCService scenario.serving)
    = [NetListen "unix" "/var/run/edgectl.socket";
       Chmod "/var/run/edgectl.socket" 511;
       NewServer; RegisterDaemonServer; GoHandleSignalsAndShutdown; Ready]
      ++ rest.
Proof.
  apply (runGRPCService_ready scenario.serving).
  apply (runGRPCService_ready scenario.serving). split; reflexivity.
Defined.

(** X7. The RPC worker returns nil exactly when listening, setting the mode
    and serving all succeed. The text of an error it returns names the
    step that failed, followed by a colon, a space and the text of that
    step's error. It serves only if listening and setting the mode
    succeeded. *)
Theorem runGRPCService_result (h : Host) :
  (fst (runGRPCService h) = None
   <-> Listen_result h = None /\ Chmod_result h = None
       /\ Serve_result h = None) /\
  (forall e, fst (runGRPCService h) = Some e ->
   exists step cause,
     errors.Error e = (step ++ ": " ++ errors.Error cause)%string /\
     (step = "listen" /\ Listen_result h = Some cause
      \/ step = "chmod" /\ Listen_result h = None
         /\ Chmod_result h = Some cause
      \/ step = "daemon gRCP server" /\ Listen_result h = None
         /\ Chmod_result h = None /\ Serve_result h = Some cause)) /\
  (In Serve (snd (runGRPCService h))
   <-> Listen_result h = None /\ Chmod_result h = None).
Proof.
  unfold runGRPCService, Wrap.
  destruct (Listen_result h) as [l|]; [|destruct (Chmod_result h) as [c|]];
    simpl.
  - split; [split; [discriminate | intros [H _]; discriminate H]|].
    split.
    + intros e [= <-]. exists "listen", l. split; [|left; split; reflexivity].
      simpl. rewrite append_empty_r. reflexivity.
    + split; [intros [H|[]]; discriminate H | intros [H _]; discriminate H].
  - split; [split; [discriminate | intros [_ [H _]]; discriminate H]|].
    split.
    + intros e [= <-]. exists "chmod", c.
      split; [|right; left; repeat split].
      simpl. rewrite append_empty_r. reflexivity.
    + split; [intros [H|[H|[]]]; discriminate H
             | intros [_ H]; discriminate H].
  - split; [|split].
    + destruct (Serve_result h); simpl; split;
        try discriminate; try (intros [_ [_ H]]; discriminate H);
        intuition.
    + intros e E. destruct (Serve_result h) as [s|]; [|discriminate E].
      simpl in E. injection E as <-. exists "daemon gRCP server", s.
      split; [|right; right; repeat split].
      simpl. rewrite append_empty_r. reflexivity.
    + split; [intros _; split; reflexivity | intros _; intuition].
Qed.

Lemma runGRPCService_result_witness :
  exists step cause,
    errors.Error (errors.Errorf "listen: "
                    (errors.New "address already in use") "")
    = (step ++ ": " ++ errors.Error cause)%string /\
    (step = "listen" /\ Listen_result scenario.occupied = Some cause
     \/ step = "chmod" /\ Listen_result scenario.occupied = None
        /\ Chmod_result scenario.occupied = Some cause
     \/ step = "daemon gRCP server"
        /\ Listen_result scenario.occupied = None
        /\ Chmod_result scenario.occupied = None
        /\ Serve_result scenario.occupied = Some cause).
Proof.
  apply (runGRPCService_result scenario.occupied). reflexivity.
Defined.

(** X8. Whatever wakes it, the shutdown handler stops the RPC server exactly
    once, and as the last thing it does. *)
Theorem handleSignalsAndShutdown_stops_last (s : Surroundings) :
  exists before,
    handleSignalsAndShutdown s = before ++ [GracefulStop] /\
    ~ In GracefulStop before.
Proof.
  unfold handleSignalsAndShutdown. eexists. rewrite app_assoc.
  split; [reflexivity|].
  rewrite in_app_iff. intros [H|H].
  - simpl in H. destruct H as [H|[H|[]]]; [discriminate H|].
    destruct (wake s); discriminate H.
  - destruct (connector_socket_exists s); simpl in H; [|exact H].
    destruct H as [H|H]; [discriminate H|].
    destruct (Dial_result s); simpl in H; [exact H|].
    destruct H as [H|[H|[]]]; discriminate H.
Qed.

(** X9. The handler dials the connector exactly when the connector's socket
    exists; it asks the connector to quit exactly when, moreover, the dial
    succeeds, whatever that request returns; and it closes the connection
    it opened, after the request and before stopping the server. *)
Theorem handleSignalsAndShutdown_cascade (s : Surroundings) :
  (In Dial (handleSignalsAndShutdown s)
   <-> connector_socket_exists s = true) /\
  (In ConnectorQuit (handleSignalsAndShutdown s)
   <-> connector_socket_exists s = true /\ Dial_result s = None) /\
  (In ConnectorQuit (handleSignalsAndShutdown s) ->
   exists before,
     handleSignalsAndShutdown s
     = before ++ [Dial; ConnectorQuit; ConnClose; GracefulStop]).
Proof.
  unfold handleSignalsAndShutdown.
  destruct (wake s), (connector_socket_exists s), (Dial_result s); simpl;
    repeat split;
    try (intros _; intuition; fail);
    try (intros H; intuition; discriminate);
    try (intros [_ H]; discriminate H);
    try (intros [H _]; discriminate H);
    try (intros _; eexists [_; _]; reflexivity);
    match goal with
    | H : _ \/ _ |- _ =>
        exfalso; repeat (destruct H as [H|H]; [discriminate H|]); exact H
    end.
Qed.

Lemma handleSignalsAndShutdown_cascade_witness :
  exists before,
    handleSignalsAndShutdown scenario.interrupted_with_connector
    = before ++ [Dial; ConnectorQuit; ConnClose; GracefulStop].
Proof.
  apply (handleSignalsAndShutdown_cascade
           scenario.interrupted_with_connector).
  apply (handleSignalsAndShutdown_cascade
           scenario.interrupted_with_connector).
  split; reflexivity.
Defined.

End Lifecycle.

(** ** The input pump *)

Section InputPump.

Import session.
Local Open Scope list_scope.

(** X10. The Data frames handed to [Send] are the non-empty chunks read, in the
    order they were read; an empty read sends nothing. *)
Theorem stdinPump_forwards (script : list Round) : forall canceled,
  sends (stdinPump canceled script)
  = forwarded (rounds (stdinPump canceled script)) script.
Proof.
  induction script as [|t rest IH]; intros c; simpl.
  - destruct c; reflexivity.
  - destruct (c || done_before t); simpl; [reflexivity|].
    destruct (chunk (Read t)) as [|b bs] eqn:C; simpl.
    + destruct (read_error (Read t)) as [e|]; simpl.
      * destruct (errors.Is e errors.io_EOF || done_after t); reflexivity.
      * apply IH.
    + f_equal. destruct (Send_result t) as [e|]; simpl.
      * destruct (done_after t); reflexivity.
      * apply IH.
Qed.

(** X11. An error that [Read] returns together with bytes is never looked at:
    the run is the one in which that [Read] returned no error. *)
Theorem stdinPump_drops_read_error (canceled : bool) (t : Round)
    (rest : list Round) :
  chunk (Read t) <> [] ->
  stdinPump canceled (t :: rest)
  = stdinPump canceled (without_read_error t :: rest).
Proof.
  intros C. simpl. destruct (chunk (Read t)) as [|b bs]; [contradiction|].
  reflexivity.
Qed.

Lemma stdinPump_drops_read_error_witness :
  rounds (stdinPump false scenario.last_bytes_with_EOF) = 3
  /\ stdinPump false (tl scenario.last_bytes_with_EOF)
     = stdinPump false
         (without_read_error (scenario.read "-l" (Some errors.io_EOF))
          :: [scenario.read "" (Some errors.io_EOF)]).
Proof.
  split; [reflexivity|].
  apply (stdinPump_drops_read_error false
           (scenario.read "-l" (Some errors.io_EOF))).
  discriminate.
Defined.

(** Rounds after which the pump goes on are all read and forwarded, and
    the pump continues with what follows them. *)
Lemma stdinPump_flowing_prefix (pre rest : list Round) :
  forallb flowing pre = true ->
  rounds (stdinPump false (pre ++ rest))
  = length pre + rounds (stdinPump false rest) /\
  input_outcome (stdinPump false (pre ++ rest))
  = input_outcome (stdinPump false rest) /\
  errors_logged (stdinPump false (pre ++ rest))
  = errors_logged (stdinPump false rest) /\
  sends (stdinPump false (pre ++ rest))
  = forwarded (length pre) pre ++ sends (stdinPump false rest).
Proof.
  induction pre as [|t pre IH]; intros L; [repeat split|].
  cbn [forallb] in L. apply andb_true_iff in L as [Lt L].
  specialize (IH L) as [R [O [E S]]].
  unfold flowing in Lt.
  destruct t as [b [c re] s a]; simpl in Lt.
  destruct b, a; try discriminate Lt.
  destruct c as [|x xs]; [destruct re|destruct s]; try discriminate Lt;
    cbn [app stdinPump done_before done_after Read Send_result chunk
         read_error orb length Nat.ltb Nat.leb forwarded];
    cbn [did_read did_send rounds input_outcome errors_logged sends];
    rewrite R, O, E, S; repeat split.
Qed.

(** X12. When input has flowed and a [Read] then returns an error and no
    bytes, the pump returns having forwarded every chunk read before, in
    order, and reads no more; it logs the error unless it is (or wraps)
    end of input or the context is canceled by then. *)
Theorem stdinPump_read_failure (pre post : list Round) (err : error)
    (s : option error) (late : bool) :
  forallb flowing pre = true ->
  let t := {| done_before := false;
              Read := {| chunk := []; read_error := Some err |};
              Send_result := s; done_after := late |} in
  let run := stdinPump false (pre ++ t :: post) in
  input_outcome run = InputReturned /\
  rounds run = S (length pre) /\
  sends run = forwarded (length pre) pre /\
  errors_logged run
  = if errors.Is err errors.io_EOF || late then []
    else [Errorf_call "failed to read from stdin" err].
Proof.
  intros L t run. subst run.
  destruct (stdinPump_flowing_prefix pre (t :: post) L) as [R [O [E S]]].
  rewrite R, O, E, S. simpl.
  destruct (errors.Is err errors.io_EOF || late); simpl;
    rewrite app_nil_r; repeat split; lia.
Qed.

Lemma stdinPump_read_failure_witness :
  input_outcome (stdinPump false scenario.last_bytes_with_EOF)
  = InputReturned
  /\ sends (stdinPump false scenario.last_bytes_with_EOF)
     = [list_byte_of_string "ls"; list_byte_of_string "-l"]
  /\ errors_logged (stdinPump false scenario.last_bytes_with_EOF) = [].
Proof.
  destruct (stdinPump_read_failure
              [scenario.read "ls" None;
               scenario.read "-l" (Some errors.io_EOF)]
              [] errors.io_EOF None false eq_refl) as [O [_ [S E]]].
  repeat split; assumption.
Defined.

(** X13. When input has flowed and a [Send] then fails, the pump returns and
    reads no more; the chunk of the failed [Send] is the last one handed
    over, and the failure is logged unless the context is canceled by
    then. *)
Theorem stdinPump_send_failure (pre post : list Round)
    (b : Byte.byte) (bs : list Byte.byte) (re : option error) (err : error)
    (late : bool) :
  forallb flowing pre = true ->
  let t := {| done_before := false;
              Read := {| chunk := b :: bs; read_error := re |};
              Send_result := Some err; done_after := late |} in
  let run := stdinPump false (pre ++ t :: post) in
  input_outcome run = InputReturned /\
  rounds run = S (length pre) /\
  sends run = forwarded (length pre) pre ++ [b :: bs] /\
  errors_logged run
  = if late then [] else [Errorf_call "failed to forward to stdin" err].
Proof.
  intros L t run. subst run.
  destruct (stdinPump_flowing_prefix pre (t :: post) L) as [R [O [E S]]].
  rewrite R, O, E, S. simpl.
  destruct late; simpl; repeat split; lia.
Qed.

Lemma stdinPump_send_failure_witness :
  rounds (stdinPump false scenario.send_breaks) = 2
  /\ errors_logged (stdinPump false scenario.send_breaks)
     = [Errorf_call "failed to forward to stdin"
          (errors.New "transport is closing")].
Proof.
  destruct (stdinPump_send_failure [scenario.read "ls" None]
              [scenario.read "more" None]
              Byte.x2d (list_byte_of_string "l") None
              (errors.New "transport is closing") false eq_refl)
    as [_ [R [_ E]]].
  split; assumption.
Defined.

End InputPump.

(** ** More on the output pump *)

Section OutputPumpExits.

Import connector cli.
Local Open Scope list_scope.

Variable result_is_empty : Result -> bool.
Variable error_of : Result -> error.

Local Abbreviation pump := (stdoutAndStderrPump result_is_empty error_of).

Lemma pump_canceled (script : list Turn) :
  reads (pump true script) = 0.
Proof. destruct script; reflexivity. Qed.

(** X15. Once the context is canceled the pump receives nothing more: a round
    at whose start it is canceled is not received, and a round during
    which it is canceled is the last one received. *)
Theorem pump_stops_when_canceled (script : list Turn) :
  forall canceled k t,
  nth_error script k = Some t ->
  (canceled_before t = true -> reads (pump canceled script) <= k) /\
  (canceled_during t = true -> reads (pump canceled script) <= S k).
Proof.
  induction script as [|t0 rest IH]; intros c k t N.
  - destruct k; discriminate N.
  - destruct (Nat.le_gt_cases (reads (pump c (t0 :: rest))) 1) as [Small|Big].
    + destruct k as [|k]; [|split; intros _; lia].
      injection N as ->. split; [|intros _; lia].
      intros B. cbn [stdoutAndStderrPump]. rewrite B, orb_true_r.
      simpl. lia.
    + destruct (pump_continues result_is_empty error_of c t0 rest Big)
        as [R _].
      destruct k as [|k].
      * injection N as ->. split; intros B.
        -- cbn [stdoutAndStderrPump] in Big. rewrite B, orb_true_r in Big.
           simpl in Big. lia.
        -- rewrite R, B, pump_canceled. lia.
      * cbn [nth_error] in N.
        destruct (IH (canceled_during t0) k t N) as [Hb Hd].
        rewrite R. split; intros B; [specialize (Hb B)|specialize (Hd B)];
          lia.
Qed.

(** X16. When a [Write] fails the pump reads nothing more; it returns the
    error, wrapped as "failed to write stdout/stderr", unless the context
    is canceled by then, in which case it returns nil. *)
Theorem pump_write_failure (script : list Turn) (canceled : bool) (k : nat)
    (t : Turn) (sr : RunCommandResponse) (r : Result) (err : error) :
  nth_error script k = Some t ->
  Recv t = RecvFrame sr ->
  Final sr = false ->
  sr_Data sr = Some r ->
  Write t = Some err ->
  k < reads (pump canceled script) ->
  reads (pump canceled script) = S k /\
  outcome (pump canceled script)
  = Returned (if canceled_during t then None
              else Some (errors.Errorf "failed to write stdout/stderr: "
                                       err newline)).
Proof.
  intros N E F D W K.
  destruct (pump_reaches result_is_empty error_of script canceled k t N K)
    as [rest [B [R O]]].
  rewrite R, O. cbn [stdoutAndStderrPump]. rewrite B, E. simpl.
  rewrite F, D, W. destruct (canceled_during t); simpl; split;
    (lia || reflexivity).
Qed.

(** X17. A frame that is not final and carries no data makes the pump panic:
    it has no result whose category could be read. *)
Theorem pump_hollow_frame_panics (script : list Turn) (canceled : bool)
    (k : nat) (t : Turn) (sr : RunCommandResponse) :
  nth_error script k = Some t ->
  Recv t = RecvFrame sr ->
  Final sr = false ->
  sr_Data sr = None ->
  k < reads (pump canceled script) ->
  reads (pump canceled script) = S k /\
  outcome (pump canceled script) = Panicked.
Proof.
  intros N E F D K.
  destruct (pump_reaches result_is_empty error_of script canceled k t N K)
    as [rest [B [R O]]].
  rewrite R, O. cbn [stdoutAndStderrPump]. rewrite B, E. simpl.
  rewrite F, D. simpl. split; [lia|reflexivity].
Qed.

(** X18. What arrives after the pump has returned or panicked changes nothing
    of its run. *)
Theorem pump_ignores_the_rest (script later : list Turn) :
  forall canceled,
  outcome (pump canceled script) <> Blocked ->
  pump canceled (script ++ later) = pump canceled script.
Proof.
  induction script as [|t rest IH]; intros c; simpl.
  - destruct c; [|intros H; contradiction H; reflexivity].
    intros _. destruct later; reflexivity.
  - destruct (c || canceled_before t); simpl; [reflexivity|].
    destruct (Recv t) as [sr|e]; simpl; [|reflexivity].
    destruct (Final sr); simpl; [reflexivity|].
    destruct (sr_Data sr); simpl; [|reflexivity].
    destruct (Write t); simpl; [reflexivity|].
    intros H. rewrite (IH _ H). reflexivity.
Qed.

End OutputPumpExits.

Lemma pump_stops_when_canceled_witness :
  cli.reads (sample.pump false scenario.canceled_midway) <= 2.
Proof.
  apply (pump_stops_when_canceled sample.uncategorized sample.categorized
           scenario.canceled_midway false 1 (scenario.interrupted "b"));
    reflexivity.
Defined.

Lemma pump_write_failure_witness :
  cli.reads (sample.pump false scenario.write_fails) = 2 /\
  cli.outcome (sample.pump false scenario.write_fails)
  = cli.Returned (Some (errors.Errorf "failed to write stdout/stderr: "
                                      scenario.disk_full cli.newline)).
Proof.
  apply (pump_write_failure sample.uncategorized sample.categorized
           scenario.write_fails false 1 (scenario.unwritable "b")
           _ _ scenario.disk_full eq_refl eq_refl eq_refl eq_refl
           eq_refl).
  vm_compute. lia.
Defined.

Lemma pump_hollow_frame_panics_witness :
  cli.reads (sample.pump false scenario.hollow_frame) = 2 /\
  cli.outcome (sample.pump false scenario.hollow_frame) = cli.Panicked.
Proof.
  apply (pump_hollow_frame_panics sample.uncategorized sample.categorized
           scenario.hollow_frame false 1 scenario.hollow _
           eq_refl eq_refl eq_refl eq_refl).
  vm_compute. lia.
Defined.

Lemma pump_ignores_the_rest_witness :
  sample.pump false (scenario.write_fails ++ sample.echo_hi)
  = sample.pump false scenario.write_fails.
Proof.
  apply (pump_ignores_the_rest sample.uncategorized sample.categorized
           scenario.write_fails sample.echo_hi false).
  vm_compute. discriminate.
Defined.

(** ** The interrupt pump and the session *)

Section Sessions.

Import connector cli session.
Local Open Scope list_scope.

Ltac no_such_move H :=
  exfalso; repeat (destruct H as [H|H]; [discriminate H|]); exact H.

(** X19. The interrupt pump hands a SoftCancel frame to [Send] exactly
    when a non-nil signal is received before the context is done, and
    never more than one. It cancels the context exactly when, moreover,
    that [Send] returned no error and the five-second timer fired before
    the context was done; [cancel] then directly follows the [Send] and
    the timer. It always ends by unregistering and closing its signal
    channel. *)
Theorem interruptPump_escalation (i : Interrupt) :
  (exists body,
     interruptPump i = Notify :: body ++ [SignalStop; CloseChannel]) /\
  (In SendSoftCancel (interruptPump i)
   <-> exists sig, first i = SignalReceived (Some sig)) /\
  soft_cancels (interruptPump i) <= 1 /\
  (In Cancel (interruptPump i)
   <-> (exists sig, first i = SignalReceived (Some sig))
       /\ SoftCancel_result i = None /\ second i = TimerFired) /\
  (In Cancel (interruptPump i) ->
   interruptPump i
   = [Notify; SendSoftCancel; TimeAfter 5; Cancel; SignalStop;
      CloseChannel]).
Proof.
  unfold interruptPump, soft_cancels.
  split; [eexists; reflexivity|].
  destruct (first i) as [|[sig|]];
    [| destruct (SoftCancel_result i) as [e|];
       [destruct (done_at_failure i) | destruct (second i)] |];
    simpl;
    (split;
     [ split;
       [ intros H; first [eexists; reflexivity | no_such_move H]
       | intros [s H]; first [discriminate H | auto 10] ]
     | split; [lia|];
       split;
       [ split;
         [ intros H;
           first [ no_such_move H
                 | split; [eexists; reflexivity | split; reflexivity] ]
         | intros [[s H1] [H2 H3]];
           first [ discriminate H1 | discriminate H2 | discriminate H3
                 | auto 10 ] ]
       | intros H; first [reflexivity | no_such_move H] ] ]).
Qed.

Lemma interruptPump_escalation_witness :
  interruptPump scenario.ignored_interrupt
  = [Notify; SendSoftCancel; TimeAfter 5; Cancel; SignalStop; CloseChannel].
Proof.
  apply (interruptPump_escalation scenario.ignored_interrupt).
  apply (interruptPump_escalation scenario.ignored_interrupt).
  split; [exists "interrupt"; reflexivity | split; reflexivity].
Defined.


Variable result_is_empty : Result -> bool.
Variable error_of : Result -> error.

Local Abbreviation run_remote := (runRemote result_is_empty error_of).




(** X20. The pumps are started exactly when initialising the command, finding
    the working directory, opening the stream and sending the Command
    frame all succeed. Otherwise [runRemote] returns the error of the
    first of these that failed, as it is, and nothing is written to
    stdout or stderr by a pump. *)
Theorem runRemote_setup (i : Invocation) (args : list string) :
  (pumps_started (run_remote i args) = true
   <-> init_result i = None /\ snd (Getwd_result i) = None
       /\ RunCommand_result i = None /\ Command_result i = None) /\
  (pumps_started (run_remote i args) = false ->
   output_writes (run_remote i args) = [] /\
   exists err,
     result (run_remote i args) = Returned (Some err) /\
     (init_result i = Some err
      \/ init_result i = None /\ snd (Getwd_result i) = Some err
      \/ init_result i = None /\ snd (Getwd_result i) = None
         /\ RunCommand_result i = Some err
      \/ init_result i = None /\ snd (Getwd_result i) = None
         /\ RunCommand_result i = None /\ Command_result i = Some err)).
Proof.
  unfold runRemote.
  destruct (init_result i) as [e1|]; simpl.
  { split; [split; [discriminate | intros [H _]; discriminate H]|].
    intros _. split; [reflexivity|]. exists e1. intuition. }
  destruct (snd (Getwd_result i)) as [e2|]; simpl.
  { split; [split; [discriminate | intros [_ [H _]]; discriminate H]|].
    intros _. split; [reflexivity|]. exists e2. intuition. }
  destruct (RunCommand_result i) as [e3|]; simpl.
  { split; [split; [discriminate | intros [_ [_ [H _]]]; discriminate H]|].
    intros _. split; [reflexivity|]. exists e3. intuition. }
  destruct (Command_result i) as [e4|]; simpl.
  { split; [split; [discriminate | intros [_ [_ [_ H]]]; discriminate H]|].
    intros _. split; [reflexivity|]. exists e4. intuition. }
  split; [intuition | discriminate].
Qed.

(** X21. Exactly one Command frame is sent once the stream is open, and none
    before: it carries the name the command was called as followed by the
    arguments, unchanged and in order, and the working directory. *)
Theorem runRemote_command_frame (i : Invocation) (args : list string) :
  (init_result i = None /\ snd (Getwd_result i) = None
   /\ RunCommand_result i = None ->
   commands (run_remote i args)
   = [{| OsArgs := CalledAs i :: args; Cwd := fst (Getwd_result i) |}]) /\
  (init_result i <> None \/ snd (Getwd_result i) <> None
   \/ RunCommand_result i <> None ->
   commands (run_remote i args) = []).
Proof.
  unfold runRemote.
  destruct (init_result i) as [e1|]; simpl;
    [split; [intros [H _]; discriminate H | reflexivity]|].
  destruct (snd (Getwd_result i)) as [e2|]; simpl;
    [split; [intros [_ [H _]]; discriminate H | reflexivity]|].
  destruct (RunCommand_result i) as [e3|]; simpl;
    [split; [intros [_ [_ H]]; discriminate H | reflexivity]|].
  split.
  - intros _. destruct (Command_result i); reflexivity.
  - intros [H|[H|H]]; contradiction H; reflexivity.
Qed.

(** X22. A session that starts and whose stream delivers Data frames, all
    written, and then a final frame: [runRemote] returns what
    [errcat.FromResult] makes of the final frame's result (nil without a
    result), the bytes of the Data frames have gone to stdout or stderr by
    category and in order, and the deferred [cancel] has run once. *)
Theorem runRemote_clean_session (i : Invocation) (args : list string)
    (pre post : list Turn) (final : option Result) (late : bool)
    (w : option error) :
  init_result i = None ->
  snd (Getwd_result i) = None ->
  RunCommand_result i = None ->
  Command_result i = None ->
  canceled_at_start i = false ->
  forallb live_data pre = true ->
  output i
  = pre ++ {| canceled_before := false;
              Recv := RecvFrame {| sr_Data := final; Final := true |};
              canceled_during := late; Write := w |} :: post ->
  result (run_remote i args)
  = Returned match final with
             | Some r => FromResult result_is_empty error_of r
             | None => None
             end /\
  output_writes (run_remote i args)
  = routed (frames_received (length pre) pre) /\
  cancel_calls (run_remote i args) = 1.
Proof.
  intros I G R C A L O. unfold runRemote. rewrite I, G, R, C, A, O. simpl.
  destruct (pump_clean_session result_is_empty error_of pre post final
              late w L) as [_ [Out Wr]].
  simpl in Out, Wr. rewrite Out, Wr. repeat split.
Qed.

End Sessions.


Lemma runRemote_setup_witness :
  session.output_writes
    (session.runRemote sample.uncategorized sample.categorized
       scenario.no_daemon ["--namespace"; "dev"]) = [] /\
  exists err,
    session.result
      (session.runRemote sample.uncategorized sample.categorized
         scenario.no_daemon ["--namespace"; "dev"])
    = cli.Returned (Some err) /\
    (session.init_result scenario.no_daemon = Some err
     \/ session.init_result scenario.no_daemon = None
        /\ snd (session.Getwd_result scenario.no_daemon) = Some err
     \/ session.init_result scenario.no_daemon = None
        /\ snd (session.Getwd_result scenario.no_daemon) = None
        /\ session.RunCommand_result scenario.no_daemon = Some err
     \/ session.init_result scenario.no_daemon = None
        /\ snd (session.Getwd_result scenario.no_daemon) = None
        /\ session.RunCommand_result scenario.no_daemon = None
        /\ session.Command_result scenario.no_daemon = Some err).
Proof.
  apply (runRemote_setup sample.uncategorized sample.categorized
           scenario.no_daemon ["--namespace"; "dev"]).
  reflexivity.
Defined.

Lemma runRemote_command_frame_witness :
  session.commands
    (session.runRemote sample.uncategorized sample.categorized
       scenario.list_pods ["--namespace"; "dev"])
  = [{| session.OsArgs := ["list"; "--namespace"; "dev"];
        session.Cwd := "/home/dev" |}].
Proof.
  apply (runRemote_command_frame sample.uncategorized sample.categorized
           scenario.list_pods ["--namespace"; "dev"]).
  repeat split.
Defined.

Lemma runRemote_clean_session_witness :
  session.result
    (session.runRemote sample.uncategorized sample.categorized
       scenario.list_pods ["--namespace"; "dev"])
  = cli.Returned (Some (errors.New "no such pod")) /\
  session.output_writes
    (session.runRemote sample.uncategorized sample.categorized
       scenario.list_pods ["--namespace"; "dev"])
  = [ {| cli.writer := cli.Stdout; cli.written := sample.bytes "out" |};
      {| cli.writer := cli.Stderr; cli.written := sample.bytes "err" |} ] /\
  session.cancel_calls
    (session.runRemote sample.uncategorized sample.categorized
       scenario.list_pods ["--namespace"; "dev"]) = 1.
Proof.
  apply (runRemote_clean_session sample.uncategorized sample.categorized
           scenario.list_pods ["--namespace"; "dev"]
           [sample.data 0 "out"; sample.data 2 "err"]
           [sample.data 0 "late"] (Some sample.no_such_pod) false None);
    reflexivity.
Defined.

(** ** Annotations and the list of remote commands *)

Section RemoteCommands.

Import remote.
Local Open Scope list_scope.

Variables Session RootDaemon UserDaemon Required Optional : string.

Local Abbreviation init := (initRemoteCommand Session RootDaemon Required).

(** X23. When [initRemoteCommand] hands the command on, its annotations require
    a session and the root daemon, and every other annotation is as it
    was; a command without annotations gets just these two. What is
    returned is what [cliutil.InitCommand] returned. *)
Theorem initRemoteCommand_annotations (annotations : option StringMap)
    (r : option error) :
  fst (init annotations r) Session = Some Required /\
  fst (init annotations r) RootDaemon = Some Required /\
  (forall key, key <> Session -> key <> RootDaemon ->
   fst (init annotations r) key
   = match annotations with
     | Some ca => ca key
     | None => None
     end) /\
  snd (init annotations r) = r.
Proof.
  unfold initRemoteCommand, store; simpl. repeat split.
  - destruct (String.eqb_spec Session RootDaemon); [reflexivity|].
    rewrite String.eqb_refl. reflexivity.
  - rewrite String.eqb_refl. reflexivity.
  - intros key S R.
    destruct (String.eqb_spec key RootDaemon); [contradiction|].
    destruct (String.eqb_spec key Session); [contradiction|].
    destruct annotations; reflexivity.
Qed.

(** X24. Initialising a command a second time leaves its annotations as the
    first time left them. *)
Theorem initRemoteCommand_again (annotations : option StringMap)
    (r r' : option error) (key : string) :
  fst (init (Some (fst (init annotations r))) r') key
  = fst (init annotations r) key.
Proof.
  unfold initRemoteCommand, store; simpl.
  destruct (String.eqb key RootDaemon); [reflexivity|].
  destruct (String.eqb key Session); reflexivity.
Qed.

Variable CommandGroups : Type.
Variable make_CommandGroups : CommandGroups.
Variable GetCommandsForLocal : error -> CommandGroups.

Local Abbreviation list_commands :=
  (getRemoteCommands UserDaemon Required Optional CommandGroups
     make_CommandGroups GetCommandsForLocal).

(** X25. [getRemoteCommands] returns an error exactly when initialising the
    command fails, or a user daemon is there and listing its commands
    fails; it returns nil groups exactly in these cases. It marks the
    user daemon as running when the listing succeeded, and never unmarks
    it. *)
Theorem getRemoteCommands_errors (l : Listing CommandGroups)
    (forceStart running : bool) :
  let listed := list_commands l forceStart running in
  (err _ listed <> None
   <-> InitCommand_result _ l <> None
       \/ user_daemon _ l = true /\ ListCommands_result _ l <> None) /\
  (groups _ listed = None <-> err _ listed <> None) /\
  userDaemonRunning _ listed
  = running || (match InitCommand_result _ l, ListCommands_result _ l with
                | None, None => user_daemon _ l
                | _, _ => false
                end).
Proof.
  unfold getRemoteCommands.
  destruct (InitCommand_result _ l) as [e|]; simpl.
  - repeat split; try discriminate; try (intros _; discriminate).
    + intros _. left. discriminate.
    + rewrite orb_false_r. reflexivity.
  - destruct (user_daemon _ l); simpl.
    + destruct (ListCommands_result _ l) as [e|]; simpl.
      * repeat split; try discriminate; try (intros _; discriminate).
        -- intros _. right. split; [reflexivity|discriminate].
        -- rewrite orb_false_r. reflexivity.
      * repeat split; try discriminate.
        -- intros H; contradiction H; reflexivity.
        -- intros [H|[_ H]]; contradiction H; reflexivity.
        -- intros H; contradiction H; reflexivity.
        -- rewrite orb_true_r. reflexivity.
    + repeat split; try discriminate.
      * intros H; contradiction H; reflexivity.
      * intros [H|[H _]]; [contradiction H; reflexivity | discriminate H].
      * intros H; contradiction H; reflexivity.
      * destruct (ListCommands_result _ l); rewrite orb_false_r;
          reflexivity.
Qed.

(** X26. When the user daemon's commands are listed but cannot be converted,
    the error is not returned: the groups are the local commands built
    from that error, the returned error is nil, and the user daemon is
    marked as running. Without a user daemon the groups are empty. *)
Theorem getRemoteCommands_fallback (l : Listing CommandGroups)
    (forceStart running : bool) :
  InitCommand_result _ l = None ->
  (user_daemon _ l = true -> ListCommands_result _ l = None ->
   forall e, snd (RPCToCommands_result _ l) = Some e ->
   groups _ (list_commands l forceStart running)
   = Some (GetCommandsForLocal e) /\
   err _ (list_commands l forceStart running) = None /\
   userDaemonRunning _ (list_commands l forceStart running) = true) /\
  (user_daemon _ l = false ->
   groups _ (list_commands l forceStart running) = Some make_CommandGroups /\
   err _ (list_commands l forceStart running) = None /\
   userDaemonRunning _ (list_commands l forceStart running) = running).
Proof.
  intros I. unfold getRemoteCommands. rewrite I. split.
  - intros U L e R. rewrite U, L, R. repeat split.
  - intros U. rewrite U. repeat split.
Qed.

(** X27. Whatever happens, [getRemoteCommands] replaces the annotations of the
    command by the single entry for the user daemon: required when a
    start is forced, optional otherwise. *)
Theorem getRemoteCommands_annotations (l : Listing CommandGroups)
    (forceStart running : bool) (key : string) :
  Annotations _ (list_commands l forceStart running) key
  = if String.eqb key UserDaemon
    then Some (if forceStart then Required else Optional)
    else None.
Proof.
  unfold getRemoteCommands, store, empty.
  destruct (InitCommand_result _ l); [reflexivity|].
  destruct (user_daemon _ l); [|reflexivity].
  destruct (ListCommands_result _ l); reflexivity.
Qed.

End RemoteCommands.

Lemma initRemoteCommand_annotations_witness :
  fst (remote.initRemoteCommand "session" "rootd" "required"
         (Some scenario.user_daemon_optional) None) "userd"
  = Some "optional".
Proof.
  apply (initRemoteCommand_annotations "session" "rootd" "required"
           (Some scenario.user_daemon_optional) None); discriminate.
Defined.

Lemma getRemoteCommands_fallback_witness :
  remote.groups _
    (remote.getRemoteCommands "userd" "required" "optional" (list string)
       [] scenario.local_commands scenario.unconvertible false false)
  = Some ["help"; "status: unknown command kind"] /\
  remote.err _
    (remote.getRemoteCommands "userd" "required" "optional" (list string)
       [] scenario.local_commands scenario.unconvertible false false)
  = None /\
  remote.userDaemonRunning _
    (remote.getRemoteCommands "userd" "required" "optional" (list string)
       [] scenario.local_commands scenario.unconvertible false false)
  = true.
Proof.
  destruct (getRemoteCommands_fallback "userd" "required" "optional"
              (list string) [] scenario.local_commands
              scenario.unconvertible false false eq_refl) as [F _].
  exact (F eq_refl eq_refl (errors.New "unknown command kind") eq_refl).
Defined.

(** A command that winds down within the five seconds is not canceled. *)
Example interruptPump_honoured :
  session.interruptPump scenario.honoured_terminate
  = [session.Notify; session.SendSoftCancel; session.TimeAfter 5;
     session.SignalStop; session.CloseChannel]
  /\ session.cancels (session.interruptPump scenario.honoured_terminate)
     = false.
Proof. split; reflexivity. Qed.
